(** * randomandroidphone: the Luhn engine and the identity synthesizer

    A shallow embedding of [src/__init__.py]: the two module-level functions
    [checksum] and [calc_check_digit], and the class [RandomPhone] with its
    constructor and its three methods.

    Conventions of the embedding.
    - A Python [str] is a [list char], one element per character; ASCII
      literals are written [lit "..."]. A character is an ASCII character
      [Ch a] or a decimal digit of another script [Nd code] (Unicode
      category Nd, one character whatever its encoding), which the regular
      expression class [\d] matches on a str and the alphabet "0123456789"
      does not hold; other non-ASCII text is not modelled.
    - A Python [int] is a [Z]; the [number] of the checksum functions is an
      int or a str.
    - An exception is a value of [exn]; a call that may raise returns a
      [result].
    - The process-wide generator of the [random] module is a tape of raw
      draws with a cursor, threaded through every call that draws from it,
      also through the calls that raise.
    - A one-column cell read from a sampled row is kept as the text that
      [str(...)] gives for it. *)

From Stdlib Require Import Ascii String.
From Stdlib Require Import List ZArith Lia Bool Arith.
Import ListNotations.

Local Open Scope Z_scope.

(** ** Python values *)

Inductive char : Type :=
| Ch (c : ascii)   (* an ASCII character *)
| Nd (code : N).   (* a decimal digit of another script, by code point *)

Definition char_of_bytes (bs : list Byte.byte) : option char :=
  match bs with
  | [b] => Some (Ch (ascii_of_byte b))
  | _ => None
  end.

Definition bytes_of_char (c : char) : option (list Byte.byte) :=
  match c with
  | Ch a => Some [byte_of_ascii a]
  | Nd _ => None
  end.

Declare Scope pychar_scope.
String Notation char char_of_bytes bytes_of_char : pychar_scope.
#[warning="-hiding-delimiting-key"] Delimit Scope pychar_scope with char.
Bind Scope pychar_scope with char.

Definition char_eqb (a b : char) : bool :=
  match a, b with
  | Ch x, Ch y => Ascii.eqb x y
  | Nd m, Nd n => N.eqb m n
  | _, _ => false
  end.

Definition str := list char.

Definition lit (s : string) : str := map Ch (list_ascii_of_string s).

(** The first argument of [checksum] and [calc_check_digit]: an int or a
    str. A str is read as such a number where one is expected. *)
Inductive number : Type :=
| Int (n : Z)
| Str (s : list char).
#[warning="-uniform-inheritance"] Coercion Str : list >-> number.

(** The exceptions the program can meet, one constructor per raising site. *)
Inductive exn : Type :=
| NeedPhoneNumber        (* ValueError raised by _get_phone_number *)
| SubstringNotFound      (* ValueError of str.index *)
| EmptySample            (* ValueError of DataFrame.sample on an empty frame *)
| NoObjectsToConcatenate (* ValueError of pd.concat on an empty list *)
| IndexOutOfRange        (* IndexError of a subscript or of random.choice *)
| NoLen                  (* TypeError of len on a missing (NaN) cell *)
| ZeroDivision           (* ZeroDivisionError of divmod and of % *)
| UnsupportedOperand     (* TypeError of int + str *)
| BadPattern.            (* re.error of a pattern that does not compile *)

Inductive exn_class : Type :=
  ValueError | IndexError | TypeError | ZeroDivisionError | ReError.

Definition class_of (e : exn) : exn_class :=
  match e with
  | NeedPhoneNumber | SubstringNotFound | EmptySample | NoObjectsToConcatenate => ValueError
  | IndexOutOfRange => IndexError
  | NoLen | UnsupportedOperand => TypeError
  | ZeroDivision => ZeroDivisionError
  | BadPattern => ReError
  end.

Inductive result (A : Type) : Type :=
| Ok (a : A)
| Raise (e : exn).
Arguments Ok {A} a.
Arguments Raise {A} e.

Definition rbind {A B} (r : result A) (k : A -> result B) : result B :=
  match r with
  | Ok a => k a
  | Raise e => Raise e
  end.

(** ** String primitives of Python used by the source *)

Definition len (s : str) : Z := Z.of_nat (length s).

(** [alphabet.index(c)] for a one-character [c]: the first position, or
    ValueError. *)
Fixpoint index (alphabet : str) (c : char) : result Z :=
  match alphabet with
  | [] => Raise SubstringNotFound
  | a :: rest =>
      if char_eqb a c then Ok 0
      else rbind (index rest c) (fun i => Ok (1 + i))
  end.

(** [tuple(f(i) for i in xs)]: the elements in order, the first raise wins. *)
Fixpoint traverse {A B} (f : A -> result B) (xs : list A) : result (list B) :=
  match xs with
  | [] => Ok []
  | x :: rest =>
      rbind (f x) (fun y => rbind (traverse f rest) (fun ys => Ok (y :: ys)))
  end.

(** [xs[::2]] and [xs[1::2]]. *)
Fixpoint stride2 {A} (xs : list A) : list A :=
  match xs with
  | [] => []
  | [x] => [x]
  | x :: _ :: rest => x :: stride2 rest
  end.

Definition stride2_from1 {A} (xs : list A) : list A := stride2 (tl xs).

Definition sum (xs : list Z) : Z := fold_left Z.add xs 0.

(** [s[i]] with Python's negative subscripts. *)
Definition subscript {A} (s : list A) (i : Z) : result A :=
  let j := if i <? 0 then Z.of_nat (length s) + i else i in
  if (j <? 0) || (Z.of_nat (length s) <=? j) then Raise IndexOutOfRange
  else match nth_error s (Z.to_nat j) with
       | Some a => Ok a
       | None => Raise IndexOutOfRange
       end.

(** [s[:n]] for [0 <= n] and [s[i:]] for any [i]. *)
Definition slice_to {A} (n : nat) (s : list A) : list A := firstn n s.

Definition slice_from {A} (i : Z) (s : list A) : list A :=
  let start :=
    if i <? 0 then Z.max 0 (Z.of_nat (length s) + i) else i in
  skipn (Z.to_nat start) s.

(** [s.zfill(width)]: zeros on the left, after a leading sign. *)
Definition zfill (width : nat) (s : str) : str :=
  let pad := repeat "0"%char (width - length s) in
  match s with
  | c :: rest =>
      if char_eqb c "+" || char_eqb c "-" then c :: pad ++ rest else pad ++ s
  | [] => pad
  end.

(** [s.upper()]: a digit has no case. *)
Definition upper_char (c : char) : char :=
  match c with
  | Ch a =>
      let n := nat_of_ascii a in
      if (97 <=? n)%nat && (n <=? 122)%nat then Ch (ascii_of_nat (n - 32)) else c
  | Nd _ => c
  end.

Definition upper (s : str) : str := map upper_char s.

(** One of the ten digits "0" to "9". *)
Definition is_digit (c : char) : bool :=
  match c with
  | Ch a => let n := nat_of_ascii a in (48 <=? n)%nat && (n <=? 57)%nat
  | Nd _ => false
  end.

(** A decimal digit as the class [\d] of [re] has it on a str: one of "0"
    to "9", or a decimal digit of another script. *)
Definition is_decimal (c : char) : bool :=
  match c with
  | Ch _ => is_digit c
  | Nd _ => true
  end.

(** [re.sub(r"\D+", "", s)]: every run of characters outside [\d] is
    dropped. *)
Definition strip_non_digits (s : str) : str := filter is_decimal s.

(** Positional notation of a non-negative integer, most significant digit
    first; an integer below [2 ^ fuel] needs at most [fuel] digits in any
    base from 2 on. *)
Definition digit_char (d : Z) : char :=
  nth (Z.to_nat d) (lit "0123456789abcdef") "0"%char.

Fixpoint to_base (fuel : nat) (base n : Z) (acc : str) : str :=
  match fuel with
  | O => acc
  | S fuel' =>
      let acc' := digit_char (n mod base) :: acc in
      if n / base =? 0 then acc' else to_base fuel' base (n / base) acc'
  end.

Definition digits_of (base n : Z) : str :=
  to_base (S (Z.to_nat (Z.log2 n))) base n [].

Definition signed (base n : Z) : str :=
  if n <? 0 then "-"%char :: digits_of base (- n) else digits_of base n.

(** [str(n)] for an int [n]. *)
Definition str_of_int (n : Z) : str := signed 10 n.

(** ["%02x" % n]. *)
Definition fmt_02x (n : Z) : str := zfill 2 (signed 16 n).

(** ** The checksum engine *)

Definition decimal : str := lit "0123456789".

(** [str(number)]. *)
Definition to_str (number : number) : str :=
  match number with
  | Int n => str_of_int n
  | Str s => s
  end.

(** [number + s] for a str [s]: an int cannot be added to it. *)
Definition plus_str (number : number) (s : str) : result str :=
  match number with
  | Int _ => Raise UnsupportedOperand
  | Str t => Ok (t ++ s)
  end.

(** [checksum(number, alphabet)]. The generator over [reversed(str(number))]
    is run first, then the sums; with an empty alphabet [% n] divides by
    zero. *)
Definition checksum (number : number) (alphabet : str) : result Z :=
  let n := len alphabet in
  rbind (traverse (index alphabet) (rev (to_str number))) (fun number =>
    if n =? 0 then Raise ZeroDivision
    else Ok ((sum (stride2 number)
              + sum (map (fun i => (i * 2) / n + (i * 2) mod n) (stride2_from1 number)))
             mod n)).

(** [calc_check_digit(number, alphabet)]. The inner call of [checksum] is
    made without the alphabet, so it runs on the default one. *)
Definition calc_check_digit (number : number) (alphabet : str) : result str :=
  rbind (subscript alphabet 0) (fun a0 =>
  rbind (plus_str number [a0]) (fun extended =>
  rbind (checksum extended decimal) (fun check_digit =>
  rbind (subscript alphabet (- check_digit)) (fun c => Ok [c])))).

(** [sorted(xs, key=len)]: a stable sort. *)
Fixpoint insert_by_len (x : str) (xs : list str) : list str :=
  match xs with
  | [] => [x]
  | y :: rest =>
      if (length x <? length y)%nat then x :: xs else y :: insert_by_len x rest
  end.

Definition sorted_by_len (xs : list str) : list str :=
  fold_left (fun acc x => insert_by_len x acc) xs [].

(** ** The two generators

    [random.choice] and [random.randint] draw from the generator of the
    [random] module, [DataFrame.sample] from the one of numpy. A raw draw is
    any integer; each primitive reduces it to its range, so that every
    value of the range is reached by some tape. *)

Record Random : Type := mkRandom {
  py_tape : nat -> Z;
  py_cursor : nat;
  np_tape : nat -> Z;
  np_cursor : nat
}.

Definition M (A : Type) : Type := Random -> result A * Random.

Definition ret {A} (a : A) : M A := fun g => (Ok a, g).

Definition raise {A} (e : exn) : M A := fun g => (Raise e, g).

Definition bind {A B} (c : M A) (k : A -> M B) : M B :=
  fun g =>
    match c g with
    | (Ok a, g') => k a g'
    | (Raise e, g') => (Raise e, g')
    end.

Definition lift {A} (r : result A) : M A := fun g => (r, g).

Notation "x <- c ;; k" := (bind c (fun x => k))
  (at level 61, c at next level, right associativity).

Definition py_draw : M Z :=
  fun g => (Ok (py_tape g (py_cursor g)),
            mkRandom (py_tape g) (S (py_cursor g)) (np_tape g) (np_cursor g)).

Definition np_draw : M Z :=
  fun g => (Ok (np_tape g (np_cursor g)),
            mkRandom (py_tape g) (py_cursor g) (np_tape g) (S (np_cursor g))).

(** [random.randint(a, b)] for [a <= b]. *)
Definition randint (a b : Z) : M Z :=
  r <- py_draw ;; ret (a + r mod (b - a + 1)).

(** [random.choice(seq)]. *)
Definition choice {A} (seq : list A) : M A :=
  match seq with
  | [] => raise IndexOutOfRange
  | x :: _ =>
      r <- py_draw ;;
      ret (nth (Z.to_nat (r mod Z.of_nat (length seq))) seq x)
  end.

(** [frame.sample()]: a frame of one row of [frame]. *)
Definition sample {A} (frame : list A) : M (list A) :=
  match frame with
  | [] => raise EmptySample
  | x :: _ =>
      r <- np_draw ;;
      ret [nth (Z.to_nat (r mod Z.of_nat (length frame))) frame x]
  end.

(** [frame.col.iloc[0]]. *)
Definition iloc0 {A B} (frame : list A) (col : A -> B) : M B :=
  match frame with
  | [] => raise IndexOutOfRange
  | x :: _ => ret (col x)
  end.

Fixpoint for_each {A B} (f : A -> M B) (xs : list A) : M (list B) :=
  match xs with
  | [] => ret []
  | x :: rest => y <- f x ;; ys <- for_each f rest ;; ret (y :: ys)
  end.

(** ** The reference tables and the generated frame

    A frame is the list of its rows, in index order. The descriptive
    columns of a device row (brand, model, screen, ...) are carried through
    unread and are kept together in [aa_description]. A cell that holds NaN
    is [None] where the source reads it without [str]. *)

Record DeviceRow : Type := mkDeviceRow {
  aa_description : list str;
  bb_tac1 : str;
  bb_mac_prefix : option str
}.

Record OperatorRow : Type := mkOperatorRow {
  aa_country : option str;
  aa_network : str;
  aa_mcc : str;
  aa_mnc : str;
  aa_line : str;
  aa_iso : str
}.

(** A device row after [assign(cc_imsi=..., ...)]. *)
Record AssignedRow : Type := mkAssignedRow {
  device : DeviceRow;
  cc_imsi : str;
  cc_imei : str;
  cc_iccid : str;
  cc_macaddress : str;
  cc_phone_number : str
}.

(** A row of [pd.concat([sa2, sa], axis=1)]. *)
Record IdentityRow : Type := mkIdentityRow {
  assigned : AssignedRow;
  operator : OperatorRow
}.

Definition Frame : Type := list IdentityRow.

(** [pd.concat([left, right], axis=1)] of two frames indexed from 0. *)
Definition concat_columns (left : list AssignedRow) (right : list OperatorRow) : Frame :=
  map (fun lr => mkIdentityRow (fst lr) (snd lr)) (combine left right).

(** [pd.concat(frames, ignore_index=True)]. *)
Definition pd_concat (frames : list Frame) : result Frame :=
  match frames with
  | [] => Raise NoObjectsToConcatenate
  | _ :: _ => Ok (concat frames)
  end.

(** [":%02x:%02x:%02x" % (a, b, c)]. *)
Definition fmt_octets (a b c : Z) : str :=
  lit ":" ++ fmt_02x a ++ lit ":" ++ fmt_02x b ++ lit ":" ++ fmt_02x c.

(** Truthiness of the optional [phonenumber] argument. *)
Definition truthy (phonenumber : option str) : bool :=
  match phonenumber with
  | Some (_ :: _) => true
  | _ => false
  end.

(** ** class RandomPhone *)

Module RandomPhone.

Record t : Type := mk {
  country : str;
  phone_format_without_country : list (list str);
  df : list DeviceRow;
  df2 : list OperatorRow
}.

Section Construction.

(** The two pickled tables that ship beside the module, and the regular
    expressions behind [str.contains]: whether
    [re.compile(pattern, flags=re.I)] succeeds, and for a pattern that
    compiles the test [pattern.search(text) is not None]. *)
Variable phoneswithtac : list DeviceRow.
Variable phonecodescountry : list OperatorRow.
Variable re_valid : str -> bool.
Variable re_search : str -> str -> bool.

(** [__init__]. The format is a sequence of chunks, each a sequence of
    fragments given as the text [str(y)] yields. The format is normalised
    first; the country pattern is compiled after the tables are read. *)
Definition __init__ (country : str) (phone_format_without_country : list (list str))
  : result t :=
  rbind
    (traverse
       (fun x => rbind (subscript (sorted_by_len x) (-1))
                       (fun longest => Ok (length longest)))
       phone_format_without_country)
    (fun phone_format_without_countrytmp =>
       if re_valid country then
         Ok (mk country
                (map (fun xw => map (zfill (snd xw)) (fst xw))
                     (combine phone_format_without_country
                              phone_format_without_countrytmp))
                phoneswithtac
                (filter (fun row =>
                           match aa_country row with
                           | Some name => re_search country name
                           | None => false
                           end)
                        phonecodescountry))
       else Raise BadPattern).

End Construction.

Definition _get_phone_number (self : t) (phonenumber : option str) : M str :=
  phonenumber <-
    (if truthy phonenumber then
       ret (match phonenumber with Some p => p | None => [] end)
     else
       match phone_format_without_country self with
       | _ :: _ =>
           formatedphone <- for_each choice (phone_format_without_country self) ;;
           ret (concat formatedphone)
       | [] => raise NeedPhoneNumber
       end) ;;
  ret (strip_non_digits phonenumber).

Definition _get_phone_data (self : t) (phonenumber : option str) : M Frame :=
  phonenumber <- _get_phone_number self phonenumber ;;
  sa2 <- sample (df self) ;;
  tac <- iloc0 sa2 bb_tac1 ;;
  sa <- sample (df2 self) ;;
  mcc <- iloc0 sa aa_mcc ;;
  mnc <- iloc0 sa aa_mnc ;;
  let imsi := slice_to 15 (mcc ++ mnc ++ phonenumber) in
  r <- randint 0 999999 ;;
  let imei := slice_to 14 (tac ++ zfill 6 (str_of_int r)) in
  checknumberimei <- lift (calc_check_digit imei decimal) ;;
  let imei := imei ++ checknumberimei in
  line <- iloc0 sa aa_line ;;
  mnc <- iloc0 sa aa_mnc ;;
  let iccid :=
    slice_to 19 (lit "89"
                 ++ slice_to 6 (line ++ repeat "0"%char 6)
                 ++ mnc
                 ++ slice_to 10 (phonenumber ++ repeat "0"%char 12)) in
  checknumbericcid <- lift (calc_check_digit iccid decimal) ;;
  let iccid := iccid ++ checknumbericcid in
  macaddressprefix <- iloc0 sa2 bb_mac_prefix ;;
  let totallen := 17 in
  macaddressprefix <-
    match macaddressprefix with
    | Some p => ret p
    | None => raise NoLen
    end ;;
  let macaddressprefixlen := totallen - len macaddressprefix in
  a <- randint 0 255 ;;
  b <- randint 0 255 ;;
  c <- randint 0 255 ;;
  let macaddress :=
    upper (macaddressprefix
           ++ slice_from (- macaddressprefixlen) (fmt_octets a b c)) in
  line <- iloc0 sa aa_line ;;
  let sa2 :=
    map (fun d => mkAssignedRow d imsi imei iccid macaddress (line ++ phonenumber)) sa2 in
  ret (concat_columns sa2 sa).

(** The [while] loop of [get_phone_data]; [fuel] bounds the number of
    passes through its body, [None] is a loop still running. *)
Fixpoint collect (fuel : nat) (self : t) (phonenumber : option str) (qty : Z)
         (allresults : list Frame) (g : Random) : option (list Frame) * Random :=
  if Z.of_nat (length allresults) <? qty then
    match fuel with
    | O => (None, g)
    | S fuel' =>
        match _get_phone_data self phonenumber g with
        | (Ok frame, g') =>
            collect fuel' self phonenumber qty (allresults ++ [frame]) g'
        | (Raise _, g') =>
            collect fuel' self phonenumber qty allresults g'
        end
    end
  else (Some allresults, g).

Definition get_phone_data (fuel : nat) (self : t) (phonenumber : option str) (qty : Z)
  : Random -> option (result Frame) * Random :=
  fun g =>
    match collect fuel self phonenumber qty [] g with
    | (None, g') => (None, g')
    | (Some allresults, g') =>
        if (length allresults =? 1)%nat then (Some (subscript allresults 0), g')
        else (Some (pd_concat allresults), g')
    end.

End RandomPhone.

Import RandomPhone.

(** ** Abbreviations used in the statements *)

Definition digit_string (s : str) : bool := forallb is_digit s.

(** The fourteen characters of an IMEI before its check digit, the nineteen
    of an ICCID, and the MAC address, as [_get_phone_data] builds them. *)
Definition imei_body (tac : str) (r : Z) : str :=
  slice_to 14 (tac ++ zfill 6 (str_of_int r)).

Definition iccid_body (line mnc phonenumber : str) : str :=
  slice_to 19 (lit "89"
               ++ slice_to 6 (line ++ repeat "0"%char 6)
               ++ mnc
               ++ slice_to 10 (phonenumber ++ repeat "0"%char 12)).

Definition mac_of (prefix : str) (a b c : Z) : str :=
  upper (prefix ++ slice_from (- (17 - len prefix)) (fmt_octets a b c)).

Definition is_upper_hex (c : char) : bool :=
  match c with
  | Ch a => let n := nat_of_ascii a in is_digit c || ((65 <=? n)%nat && (n <=? 70)%nat)
  | Nd _ => false
  end.

Definition is_hex (c : char) : bool :=
  match c with
  | Ch a =>
      let n := nat_of_ascii a in is_upper_hex c || ((97 <=? n)%nat && (n <=? 102)%nat)
  | Nd _ => false
  end.

(** [mac_shape hex pos s]: [s], read from position [pos] of an address, has
    a colon at every position 2, 5, 8, ... and a [hex] character elsewhere. *)
Fixpoint mac_shape (hex : char -> bool) (pos : nat) (s : str) : bool :=
  match s with
  | [] => true
  | c :: rest =>
      (if (pos mod 3 =? 2)%nat then char_eqb c ":" else hex c)
      && mac_shape hex (S pos) rest
  end.

(** A frame that some call of [_get_phone_data] returned. *)
Definition generated (self : RandomPhone.t) (phonenumber : option str) (frame : Frame)
  : Prop :=
  exists g g', _get_phone_data self phonenumber g = (Ok frame, g').

(** A phone number can be built: one is given, or a format with no empty
    chunk is configured. *)
Definition derivable (self : RandomPhone.t) (phonenumber : option str) : Prop :=
  truthy phonenumber = true
  \/ (phone_format_without_country self <> []
      /\ Forall (fun chunk => chunk <> []) (phone_format_without_country self)).


(** What [checksum] computes from the indices, last symbol first. *)
Definition luhn_total (n : Z) (indices : list Z) : Z :=
  sum (stride2 indices)
  + sum (map (fun i => (i * 2) / n + (i * 2) mod n) (stride2_from1 indices)).

(** The row [_get_phone_data] assembles from its samples and its draws. *)
Definition identity_row (d : DeviceRow) (o : OperatorRow) (p prefix : str)
           (r a b c : Z) (cd1 cd2 : str) : IdentityRow :=
  mkIdentityRow
    (mkAssignedRow d
       (slice_to 15 (aa_mcc o ++ aa_mnc o ++ p))
       (imei_body (bb_tac1 d) r ++ cd1)
       (iccid_body (aa_line o) (aa_mnc o) p ++ cd2)
       (mac_of prefix a b c)
       (aa_line o ++ p))
    o.

(** A formatted octet, uppercased, is two uppercase hexadecimal digits. *)
Definition octet_ok (n : Z) : bool :=
  match upper (fmt_02x n) with
  | [x; y] => is_upper_hex x && is_upper_hex y
  | _ => false
  end.

(** [out] is the outcome of a call for [qty] records: the frames of [qty]
    syntheses, each of one row, put together in the order they were made,
    [qty] rows in all. For one record it is [allresults[0]], the frame of
    that synthesis itself, which is also what concatenating it alone
    gives; for more it is their concatenation. *)
Definition qty_records (self : RandomPhone.t) (phonenumber : option str) (qty : Z)
           (out : result Frame) : Prop :=
  exists frames,
    Forall (generated self phonenumber) frames
    /\ Forall (fun frame => length frame = 1%nat) frames
    /\ Z.of_nat (length frames) = qty
    /\ out = Ok (concat frames)
    /\ Z.of_nat (length (concat frames)) = qty
    /\ (qty = 1 ->
        exists frame,
          frames = [frame] /\ out = subscript frames 0 /\ out = Ok frame
          /\ pd_concat frames = Ok frame /\ generated self phonenumber frame)
    /\ (1 < qty -> out = pd_concat frames).

(** The sum that [checksum] takes, read along the indices: an index counts
    as it is or doubled, in turn. *)
Fixpoint luhn_weighted (doubled : bool) (n : Z) (indices : list Z) : Z :=
  match indices with
  | [] => 0
  | i :: rest =>
      (if doubled then (i * 2) / n + (i * 2) mod n else i)
      + luhn_weighted (negb doubled) n rest
  end.

(** A list of strings in order of length, shortest first. *)
Fixpoint sorted_len (xs : list str) : Prop :=
  match xs with
  | [] => True
  | x :: rest => Forall (fun y => (length x <= length y)%nat) rest /\ sorted_len rest
  end.

(** The length of the longest fragment of a chunk. *)
Definition longest (chunk : list str) : nat := list_max (map (@length char) chunk).

(** A string of decimal digits as [\d] has them. *)
Definition decimal_string (s : str) : bool := forallb is_decimal s.


(** ** Example data *)

Definition ex_device : DeviceRow :=
  mkDeviceRow [lit "QSmart"; lit "MARK_2"] (lit "35440811") (Some (lit "00:0A:00")).

Definition ex_device_short : DeviceRow :=
  mkDeviceRow [lit "iBall"; lit "Slide_Skye_03"] (lit "1234567") (Some (lit "00:0A")).

Definition ex_operator : OperatorRow :=
  mkOperatorRow (Some (lit "Brazil")) (lit "Vivo") (lit "724") (lit "11") (lit "55")
                (lit "BR / BRA").

Definition ex_random : Random :=
  mkRandom (fun n => Z.of_nat n * 7919 + 877984) 0 (fun n => Z.of_nat n) 0.

Definition ex_self : RandomPhone.t :=
  RandomPhone.mk (lit "Brazil") [] [ex_device] [ex_operator].

Definition ex_self_short : RandomPhone.t :=
  RandomPhone.mk (lit "Brazil") [] [ex_device_short] [ex_operator].

Definition ex_phone : option str := Some (lit "(24) 97036-8714").

(** A phone number whose third digit is the Arabic-Indic digit three,
    U+0663. *)
Definition ex_phone_arabic_indic : option str :=
  Some (lit "(24) 97" ++ [Nd 1635] ++ lit "36-8714").

(** A sixteen-symbol alphabet. *)
Definition hexadecimal : str := lit "0123456789abcdef".


(** The synthesizer constructed for Brazil with a format of three chunks. *)
Definition ex_self_format : RandomPhone.t :=
  RandomPhone.mk (lit "Brazil") [[lit "11"; lit "12"]; [lit "9"]; [lit "0001"]]
                 [ex_device] [ex_operator].

(** The synthesizer constructed for a country that no operator row matches. *)
Definition ex_atlantis : RandomPhone.t :=
  RandomPhone.mk (lit "Atlantis") [] [ex_device] [].

(** A stand-in for the compilation of a pattern: letters, digits and
    spaces make a pattern that compiles. *)
Definition ex_valid (p : str) : bool :=
  forallb (fun c =>
             match c with
             | Ch a =>
                 let n := nat_of_ascii a in
                 is_digit c || (n =? 32)%nat
                 || ((65 <=? n)%nat && (n <=? 90)%nat)
                 || ((97 <=? n)%nat && (n <=? 122)%nat)
             | Nd _ => true
             end) p.

(** A literal, case-sensitive stand-in for the regular-expression search. *)
Fixpoint starts_with (p s : str) : bool :=
  match p, s with
  | [], _ => true
  | _ :: _, [] => false
  | a :: p', b :: s' => char_eqb a b && starts_with p' s'
  end.

Fixpoint ex_search (p s : str) : bool :=
  starts_with p s
  || match s with
     | [] => false
     | _ :: s' => ex_search p s'
     end.

(** * Theorems *)

(** ** The Python primitives on a few inputs *)

Example str_of_int_examples :
  map str_of_int [0; 7; 42; 999999; 1000000; -15]
  = [lit "0"; lit "7"; lit "42"; lit "999999"; lit "1000000"; lit "-15"].
Proof. reflexivity. Qed.

Example fmt_02x_examples :
  map fmt_02x [0; 10; 16; 255; 256; -1]
  = [lit "00"; lit "0a"; lit "10"; lit "ff"; lit "100"; lit "-1"].
Proof. reflexivity. Qed.

Example zfill_examples :
  map (zfill 4) [lit "7"; lit "-7"; lit "+42"; lit "12345"; lit ""]
  = [lit "0007"; lit "-007"; lit "+042"; lit "12345"; lit "0000"].
Proof. reflexivity. Qed.

Example slice_from_examples :
  map (fun i => slice_from i (lit ":ab:cd:ef")) [-9; -7; 0; -12; 1; 9]
  = [lit ":ab:cd:ef"; lit "b:cd:ef"; lit ":ab:cd:ef"; lit ":ab:cd:ef";
     lit "ab:cd:ef"; lit ""].
Proof. reflexivity. Qed.

Example sorted_by_len_example :
  sorted_by_len [lit "333"; lit "1"; lit "22"; lit "4"]
  = [lit "1"; lit "4"; lit "22"; lit "333"].
Proof. reflexivity. Qed.

Example __init___pads_each_chunk :
  rbind (__init__ [ex_device] [ex_operator] ex_valid ex_search (lit "Brazil")
                  [[lit "1"; lit "12"]; [lit "9"]; [lit "0"; lit "9998"]])
        (fun self => Ok (phone_format_without_country self, df2 self))
  = Ok ([[lit "01"; lit "12"]; [lit "9"]; [lit "0000"; lit "9998"]], [ex_operator]).
Proof. reflexivity. Qed.

Example __init___empty_chunk :
  __init__ [ex_device] [ex_operator] ex_valid ex_search (lit "Brazil") [[lit "11"]; []]
  = Raise IndexOutOfRange.
Proof. reflexivity. Qed.

Example __init___bad_pattern :
  __init__ [ex_device] [ex_operator] ex_valid ex_search (lit "Brazil (") [[lit "11"]]
  = Raise BadPattern
  /\ __init__ [ex_device] [ex_operator] ex_valid ex_search (lit "Brazil (")
              [[lit "11"]; []]
     = Raise IndexOutOfRange.
Proof. split; reflexivity. Qed.

Example strip_non_digits_examples :
  strip_non_digits (lit "(11) 91234-5678") = lit "11912345678"
  /\ strip_non_digits (lit "+55 " ++ [Nd 1633; Nd 1634] ++ lit "-9")
     = lit "55" ++ [Nd 1633; Nd 1634] ++ lit "9".
Proof. split; reflexivity. Qed.

Example checksum_of_an_int :
  checksum (Int 79927398713) decimal = Ok 0
  /\ checksum (Int (-15)) decimal = Raise SubstringNotFound
  /\ calc_check_digit (Int 7992739871) decimal = Raise UnsupportedOperand
  /\ calc_check_digit (Int 7992739871) [] = Raise IndexOutOfRange.
Proof. repeat split; reflexivity. Qed.

Example docstring_row_0 :
  calc_check_digit (lit "35440811877984") decimal = Ok (lit "9")
  /\ calc_check_digit (lit "8955000011249703687") decimal = Ok (lit "2").
Proof. split; reflexivity. Qed.

(** ** Characters *)

Lemma char_eqb_eq (a b : char) : char_eqb a b = true <-> a = b.
Proof.
  destruct a as [x|m], b as [y|n]; cbn [char_eqb]; split; intros H;
    try discriminate H.
  - apply Ascii.eqb_eq in H. congruence.
  - apply Ascii.eqb_eq. congruence.
  - apply N.eqb_eq in H. congruence.
  - apply N.eqb_eq. congruence.
Qed.

Lemma char_eqb_refl (a : char) : char_eqb a a = true.
Proof. apply char_eqb_eq. reflexivity. Qed.

Lemma char_eqb_neq (a b : char) : char_eqb a b = false <-> a <> b.
Proof.
  split; intros H.
  - intros E. apply char_eqb_eq in E. congruence.
  - destruct (char_eqb a b) eqn:E; [|reflexivity].
    apply char_eqb_eq in E. contradiction.
Qed.

Lemma char_dec (a b : char) : {a = b} + {a <> b}.
Proof.
  destruct (char_eqb a b) eqn:E;
    [left; apply char_eqb_eq|right; apply char_eqb_neq]; exact E.
Qed.

(** ** The checksum engine on the decimal alphabet *)

Lemma sum_cons (x : Z) (xs : list Z) : sum (x :: xs) = x + sum xs.
Proof.
  unfold sum. simpl.
  assert (H : forall l a b, fold_left Z.add l (a + b) = a + fold_left Z.add l b).
  { induction l as [|y l IH]; intros a b; simpl; [reflexivity|].
    rewrite <- IH. f_equal. lia. }
  rewrite <- H. f_equal. lia.
Qed.

Lemma stride2_cons {A} (x : A) (xs : list A) :
  stride2 (x :: xs) = x :: stride2_from1 xs.
Proof. destruct xs; reflexivity. Qed.

Lemma stride2_from1_cons {A} (x : A) (xs : list A) :
  stride2_from1 (x :: xs) = stride2 xs.
Proof. reflexivity. Qed.

Lemma traverse_snoc {A B} (f : A -> result B) (xs : list A) (x : A) :
  traverse f (xs ++ [x])
  = rbind (traverse f xs) (fun ys => rbind (f x) (fun y => Ok (ys ++ [y]))).
Proof.
  induction xs as [|a xs IH]; simpl.
  - destruct (f x); reflexivity.
  - destruct (f a) as [b|e]; simpl; [|reflexivity].
    rewrite IH. destruct (traverse f xs) as [ys|e]; simpl; [|reflexivity].
    destruct (f x); reflexivity.
Qed.

Lemma index_bounds (alphabet : str) (c : char) (i : Z) :
  index alphabet c = Ok i -> 0 <= i < len alphabet.
Proof.
  unfold len. revert i. induction alphabet as [|a rest IH]; intros i H; cbn [index] in H.
  - discriminate.
  - destruct (char_eqb a c).
    + assert (E : i = 0) by congruence. cbn [length]. lia.
    + destruct (index rest c) as [j|e]; cbn [rbind] in H; [|discriminate].
      assert (E : i = 1 + j) by congruence.
      specialize (IH j eq_refl). cbn [length]. lia.
Qed.

Lemma checksum_snoc_decimal (s : str) (c : char) :
  checksum (s ++ [c]) decimal
  = rbind (index decimal c) (fun i =>
    rbind (traverse (index decimal) (rev s)) (fun rest =>
      Ok (luhn_total 10 (i :: rest) mod 10))).
Proof.
  unfold checksum. cbn [to_str]. rewrite rev_app_distr. simpl rev. simpl app.
  cbn [traverse]. destruct (index decimal c) as [i|e]; [|reflexivity].
  cbn [rbind]. destruct (traverse (index decimal) (rev s)); reflexivity.
Qed.

Lemma luhn_total_cons (n i : Z) (rest : list Z) :
  luhn_total n (i :: rest)
  = i + (sum (stride2_from1 rest)
         + sum (map (fun i => (i * 2) / n + (i * 2) mod n) (stride2 rest))).
Proof.
  unfold luhn_total. rewrite stride2_cons, stride2_from1_cons, sum_cons.
  symmetry. apply Z.add_assoc.
Qed.

(** The symbol [decimal[-c]] sits at index [(10 - c) mod 10]. *)
Lemma subscript_decimal_neg (c : Z) :
  0 <= c < 10 ->
  exists ch, subscript decimal (- c) = Ok ch
             /\ index decimal ch = Ok ((10 - c) mod 10).
Proof.
  intros H.
  assert (E : c = 0 \/ c = 1 \/ c = 2 \/ c = 3 \/ c = 4 \/ c = 5 \/ c = 6
              \/ c = 7 \/ c = 8 \/ c = 9) by lia.
  repeat (destruct E as [E|E]); subst c; eexists; split; reflexivity.
Qed.

Lemma check_digit_cancels (t c : Z) :
  c = t mod 10 -> ((10 - c) mod 10 + t) mod 10 = 0.
Proof.
  intros ->.
  rewrite Zplus_mod_idemp_l.
  replace (10 - t mod 10 + t) with (t - t mod 10 + 1 * 10) by lia.
  rewrite Z_mod_plus_full. rewrite Zminus_mod_idemp_r.
  rewrite Z.sub_diag. reflexivity.
Qed.

(** Appending the check digit computed on the decimal alphabet gives a
    string of checksum zero. *)
Lemma calc_check_digit_decimal_valid (s d : str) :
  calc_check_digit s decimal = Ok d ->
  checksum (s ++ d) decimal = Ok 0 /\ length d = 1%nat.
Proof.
  unfold calc_check_digit.
  change (subscript decimal 0) with (Ok "0"%char : result char).
  cbn [rbind plus_str].
  rewrite checksum_snoc_decimal.
  change (index decimal "0") with (Ok 0 : result Z). cbn [rbind].
  destruct (traverse (index decimal) (rev s)) as [rest|e] eqn:Hrest;
    cbn [rbind]; [|discriminate].
  rewrite luhn_total_cons.
  set (t := sum (stride2_from1 rest)
            + sum (map (fun i => i * 2 / 10 + (i * 2) mod 10) (stride2 rest))).
  assert (Hc : 0 <= (0 + t) mod 10 < 10) by (apply Z.mod_pos_bound; lia).
  destruct (subscript_decimal_neg _ Hc) as [ch [Hsub Hidx]].
  rewrite Hsub. cbn [rbind]. intros H. injection H as <-.
  split; [|reflexivity].
  rewrite checksum_snoc_decimal, Hidx. cbn [rbind]. rewrite Hrest. cbn [rbind].
  rewrite luhn_total_cons. fold t. f_equal.
  apply check_digit_cancels. f_equal.
Qed.

(** ** Running the monad *)

Lemma bind_Ok {A B} (c : M A) (k : A -> M B) (g g' : Random) (b : B) :
  bind c k g = (Ok b, g') ->
  exists a g1, c g = (Ok a, g1) /\ k a g1 = (Ok b, g').
Proof.
  unfold bind. destruct (c g) as [[a|e] g1]; intros H.
  - exists a, g1. split; [reflexivity|exact H].
  - discriminate.
Qed.

Lemma bind_run {A B} (c : M A) (k : A -> M B) (g g1 : Random) (a : A) :
  c g = (Ok a, g1) -> bind c k g = k a g1.
Proof. unfold bind. intros ->. reflexivity. Qed.

Lemma bind_raise {A B} (c : M A) (k : A -> M B) (g g1 : Random) (e : exn) :
  c g = (Raise e, g1) -> bind c k g = (Raise e, g1).
Proof. unfold bind. intros ->. reflexivity. Qed.

Lemma ret_Ok {A} (a b : A) (g g' : Random) :
  ret a g = (Ok b, g') -> b = a /\ g' = g.
Proof. unfold ret. intros H. split; congruence. Qed.

Lemma lift_Ok {A} (r : result A) (a : A) (g g' : Random) :
  lift r g = (Ok a, g') -> r = Ok a /\ g' = g.
Proof. unfold lift. intros H. split; congruence. Qed.

Lemma randint_Ok (a b r : Z) (g g' : Random) :
  a <= b -> randint a b g = (Ok r, g') -> a <= r <= b.
Proof.
  intros Hab H. unfold randint, bind, py_draw, ret in H.
  assert (E : r = a + py_tape g (py_cursor g) mod (b - a + 1)) by congruence.
  pose proof (Z.mod_pos_bound (py_tape g (py_cursor g)) (b - a + 1)). lia.
Qed.


Lemma nth_mod_In {A} (r : Z) (x : A) (xs : list A) :
  In (nth (Z.to_nat (r mod Z.of_nat (length (x :: xs)))) (x :: xs) x) (x :: xs).
Proof.
  apply nth_In.
  pose proof (Z.mod_pos_bound r (Z.of_nat (length (x :: xs)))) as Hb.
  cbn [length] in *. lia.
Qed.

Lemma sample_Ok {A} (frame s : list A) (g g' : Random) :
  sample frame g = (Ok s, g') -> exists x, In x frame /\ s = [x].
Proof.
  destruct frame as [|x xs]; unfold sample; [discriminate|].
  unfold bind, np_draw, ret. intros H.
  eexists. split; [apply (nth_mod_In (np_tape g (np_cursor g)))|congruence].
Qed.


Lemma choice_total {A} (seq : list A) (g : Random) :
  seq <> [] -> exists x g', In x seq /\ choice seq g = (Ok x, g').
Proof.
  destruct seq as [|x xs]; [congruence|]. intros _.
  unfold choice, bind, py_draw, ret.
  eexists. eexists. split; [apply (nth_mod_In (py_tape g (py_cursor g)))|reflexivity].
Qed.

Lemma for_each_choice_total {A} (chunks : list (list A)) (g : Random) :
  Forall (fun chunk => chunk <> []) chunks ->
  exists picked g',
    for_each choice chunks g = (Ok picked, g') /\ Forall2 (@In A) picked chunks.
Proof.
  intros H. revert g. induction H as [|chunk rest Hne _ IH]; intros g.
  - exists [], g. split; [reflexivity|constructor].
  - destruct (choice_total chunk g Hne) as (x & g1 & Hin & Hx).
    destruct (IH g1) as (ys & g2 & Hys & Hall).
    exists (x :: ys), g2. split; [|constructor; assumption].
    cbn [for_each]. rewrite (bind_run _ _ _ _ _ Hx), (bind_run _ _ _ _ _ Hys).
    reflexivity.
Qed.

(** ** One synthesis, taken apart *)

Lemma _get_phone_number_decimal (self : RandomPhone.t) (phonenumber : option str)
      (g g' : Random) (p : str) :
  _get_phone_number self phonenumber g = (Ok p, g') -> decimal_string p = true.
Proof.
  unfold _get_phone_number. intros H.
  apply bind_Ok in H. destruct H as (raw & g1 & _ & H).
  apply ret_Ok in H. destruct H as [-> _].
  unfold decimal_string, strip_non_digits. apply forallb_forall.
  intros c Hc. apply filter_In in Hc. tauto.
Qed.

Lemma choice_Ok {A} (seq : list A) (g g' : Random) (x : A) :
  choice seq g = (Ok x, g') -> In x seq.
Proof.
  destruct seq as [|y ys]; unfold choice; [discriminate|].
  unfold bind, py_draw, ret. intros H.
  assert (E : x = nth (Z.to_nat (py_tape g (py_cursor g) mod Z.of_nat (length (y :: ys))))
                      (y :: ys) y) by congruence.
  rewrite E. apply nth_mod_In.
Qed.

Lemma for_each_choice_Ok {A} (chunks : list (list A)) (g g' : Random)
      (picked : list A) :
  for_each choice chunks g = (Ok picked, g') -> Forall2 (@In A) picked chunks.
Proof.
  revert g g' picked. induction chunks as [|chunk rest IH]; intros g g' picked H;
    cbn [for_each] in H.
  - apply ret_Ok in H. destruct H as [-> _]. constructor.
  - apply bind_Ok in H. destruct H as (x & g1 & Hx & H).
    apply bind_Ok in H. destruct H as (xs & g2 & Hxs & H).
    apply ret_Ok in H. destruct H as [-> _].
    constructor; [exact (choice_Ok _ _ _ _ Hx)|exact (IH _ _ _ Hxs)].
Qed.

Lemma filter_all {A} (f : A -> bool) (xs : list A) :
  forallb f xs = true -> filter f xs = xs.
Proof.
  induction xs as [|x rest IH]; cbn [forallb filter]; [reflexivity|].
  intros H. apply andb_true_iff in H. destruct H as [Hx Hrest].
  rewrite Hx, (IH Hrest). reflexivity.
Qed.

Lemma _get_phone_data_inv (self : RandomPhone.t) (phonenumber : option str)
      (g g' : Random) (frame : Frame) :
  _get_phone_data self phonenumber g = (Ok frame, g') ->
  exists p d o prefix r a b c cd1 cd2 g1,
    _get_phone_number self phonenumber g = (Ok p, g1)
    /\ In d (df self) /\ In o (df2 self)
    /\ bb_mac_prefix d = Some prefix
    /\ 0 <= r <= 999999 /\ 0 <= a <= 255 /\ 0 <= b <= 255 /\ 0 <= c <= 255
    /\ calc_check_digit (imei_body (bb_tac1 d) r) decimal = Ok cd1
    /\ calc_check_digit (iccid_body (aa_line o) (aa_mnc o) p) decimal = Ok cd2
    /\ frame = [identity_row d o p prefix r a b c cd1 cd2].
Proof.
  unfold _get_phone_data. intros H.
  apply bind_Ok in H. destruct H as (p & g1 & Hp & H).
  apply bind_Ok in H. destruct H as (sa2 & g2 & Hsa2 & H).
  apply sample_Ok in Hsa2. destruct Hsa2 as (d & Hd & ->).
  apply bind_Ok in H. destruct H as (tac & g3 & Htac & H).
  apply ret_Ok in Htac. destruct Htac as [-> ->].
  apply bind_Ok in H. destruct H as (sa & g4 & Hsa & H).
  apply sample_Ok in Hsa. destruct Hsa as (o & Ho & ->).
  apply bind_Ok in H. destruct H as (mcc & g5 & Hmcc & H).
  apply ret_Ok in Hmcc. destruct Hmcc as [-> ->].
  apply bind_Ok in H. destruct H as (mnc & g6 & Hmnc & H).
  apply ret_Ok in Hmnc. destruct Hmnc as [-> ->].
  apply bind_Ok in H. destruct H as (r & g7 & Hr & H).
  apply randint_Ok in Hr; [|lia].
  apply bind_Ok in H. destruct H as (cd1 & g8 & Hcd1 & H).
  apply lift_Ok in Hcd1. destruct Hcd1 as [Hcd1 ->].
  apply bind_Ok in H. destruct H as (line & g9 & Hline & H).
  apply ret_Ok in Hline. destruct Hline as [-> ->].
  apply bind_Ok in H. destruct H as (mnc & g10 & Hmnc & H).
  apply ret_Ok in Hmnc. destruct Hmnc as [-> ->].
  apply bind_Ok in H. destruct H as (cd2 & g11 & Hcd2 & H).
  apply lift_Ok in Hcd2. destruct Hcd2 as [Hcd2 ->].
  apply bind_Ok in H. destruct H as (oprefix & g12 & Hop & H).
  apply ret_Ok in Hop. destruct Hop as [-> ->].
  apply bind_Ok in H. destruct H as (prefix & g13 & Hprefix & H).
  destruct (bb_mac_prefix d) as [prefix'|] eqn:Hmac; [|discriminate].
  apply ret_Ok in Hprefix. destruct Hprefix as [-> ->].
  apply bind_Ok in H. destruct H as (a & g14 & Ha & H).
  apply randint_Ok in Ha; [|lia].
  apply bind_Ok in H. destruct H as (b & g15 & Hb & H).
  apply randint_Ok in Hb; [|lia].
  apply bind_Ok in H. destruct H as (c & g16 & Hc & H).
  apply randint_Ok in Hc; [|lia].
  apply bind_Ok in H. destruct H as (line & g17 & Hline & H).
  apply ret_Ok in Hline. destruct Hline as [-> ->].
  apply ret_Ok in H. destruct H as [-> _].
  exists p, d, o, prefix', r, a, b, c, cd1, cd2, g1.
  repeat (split; [assumption|]). reflexivity.
Qed.

(** ** Digit strings *)

Lemma index_decimal_total (c : char) :
  is_digit c = true -> exists i, index decimal c = Ok i.
Proof.
  destruct c as [[[] [] [] [] [] [] [] []]|code]; intros H; vm_compute in H;
    try discriminate H; eexists; vm_compute; reflexivity.
Qed.

Lemma digit_not_sign (c : char) :
  is_digit c = true -> char_eqb c "+" || char_eqb c "-" = false.
Proof.
  destruct c as [[[] [] [] [] [] [] [] []]|code]; intros H; vm_compute in H;
    try discriminate H; reflexivity.
Qed.

Lemma traverse_total {A B} (f : A -> result B) (xs : list A) :
  (forall x, In x xs -> exists y, f x = Ok y) ->
  exists ys, traverse f xs = Ok ys.
Proof.
  induction xs as [|x rest IH]; intros H.
  - exists []. reflexivity.
  - destruct (H x (or_introl eq_refl)) as [y Hy].
    destruct IH as [ys Hys]; [intros z Hz; apply H; right; exact Hz|].
    exists (y :: ys). cbn [traverse]. rewrite Hy. cbn [rbind]. rewrite Hys.
    reflexivity.
Qed.

Lemma digit_string_app (s t : str) :
  digit_string (s ++ t) = digit_string s && digit_string t.
Proof. apply forallb_app. Qed.

Lemma digit_string_firstn (n : nat) (s : str) :
  digit_string s = true -> digit_string (firstn n s) = true.
Proof.
  unfold digit_string. revert n. induction s as [|c s IH]; intros [|n] H;
    try reflexivity.
  cbn [firstn forallb] in *. apply andb_true_iff in H. destruct H as [Hc Hs].
  rewrite Hc. cbn [andb]. apply IH. exact Hs.
Qed.

Lemma digit_string_zeros (n : nat) : digit_string (repeat "0"%char n) = true.
Proof. induction n as [|n IH]; [reflexivity|]. cbn [repeat]. exact IH. Qed.

Lemma digit_string_zfill (w : nat) (s : str) :
  digit_string s = true -> digit_string (zfill w s) = true.
Proof.
  intros H. unfold zfill. destruct s as [|c rest].
  - apply digit_string_zeros.
  - assert (Hc : is_digit c = true).
    { unfold digit_string in H. cbn [forallb] in H.
      apply andb_true_iff in H. tauto. }
    rewrite (digit_not_sign c Hc), digit_string_app, digit_string_zeros, H.
    reflexivity.
Qed.

Lemma digit_char_decimal (d : Z) : 0 <= d < 10 -> is_digit (digit_char d) = true.
Proof.
  intros H.
  assert (E : d = 0 \/ d = 1 \/ d = 2 \/ d = 3 \/ d = 4 \/ d = 5 \/ d = 6
              \/ d = 7 \/ d = 8 \/ d = 9) by lia.
  repeat (destruct E as [E|E]); subst d; reflexivity.
Qed.

Lemma digit_string_to_base (fuel : nat) (n : Z) (acc : str) :
  digit_string acc = true -> digit_string (to_base fuel 10 n acc) = true.
Proof.
  revert n acc. induction fuel as [|fuel IH]; intros n acc H; cbn [to_base].
  - exact H.
  - assert (H' : digit_string (digit_char (n mod 10) :: acc) = true).
    { unfold digit_string. cbn [forallb].
      rewrite digit_char_decimal by (apply Z.mod_pos_bound; lia). exact H. }
    destruct (n / 10 =? 0); [exact H'|]. apply IH. exact H'.
Qed.

Lemma digit_string_str_of_int (r : Z) :
  0 <= r -> digit_string (str_of_int r) = true.
Proof.
  intros H. unfold str_of_int, signed.
  destruct (r <? 0) eqn:E; [apply Z.ltb_lt in E; lia|].
  apply digit_string_to_base. reflexivity.
Qed.



Lemma calc_check_digit_decimal_total (s : str) :
  digit_string s = true -> exists cd, calc_check_digit s decimal = Ok cd.
Proof.
  intros H. unfold calc_check_digit.
  change (subscript decimal 0) with (Ok "0"%char : result char).
  cbn [rbind plus_str].
  rewrite checksum_snoc_decimal.
  change (index decimal "0") with (Ok 0 : result Z). cbn [rbind].
  destruct (traverse_total (index decimal) (rev s)) as [rest Hrest].
  { intros c Hc. apply index_decimal_total. apply in_rev in Hc.
    unfold digit_string in H. rewrite forallb_forall in H. apply H. exact Hc. }
  rewrite Hrest. cbn [rbind].
  destruct (subscript_decimal_neg (luhn_total 10 (0 :: rest) mod 10)) as [ch [Hsub _]].
  { apply Z.mod_pos_bound. lia. }
  rewrite Hsub. cbn [rbind]. eauto.
Qed.

Lemma digit_string_decimal_string (s : str) :
  digit_string s = true -> decimal_string s = true.
Proof.
  unfold digit_string, decimal_string. rewrite !forallb_forall.
  intros H c Hc. specialize (H c Hc). destruct c as [a|code]; [exact H|reflexivity].
Qed.

Lemma strip_non_digits_digit_string (s : str) :
  digit_string s = true -> strip_non_digits s = s.
Proof.
  intros H. apply filter_all. exact (digit_string_decimal_string s H).
Qed.




(** ** One synthesis succeeds on clean tables *)

Lemma _get_phone_number_total (self : RandomPhone.t) (phonenumber : option str)
      (g : Random) :
  derivable self phonenumber ->
  exists p g', _get_phone_number self phonenumber g = (Ok p, g').
Proof.
  intros [Ht|[Hne Hall]]; unfold _get_phone_number.
  - rewrite Ht. unfold bind, ret. eauto.
  - destruct (truthy phonenumber); [unfold bind, ret; eauto|].
    destruct (phone_format_without_country self) as [|chunk rest] eqn:E;
      [congruence|].
    destruct (for_each_choice_total (chunk :: rest) g Hall) as (picked & g1 & Hp & _).
    unfold bind at 1. unfold bind at 1. rewrite Hp. unfold ret. eauto.
Qed.


(** ** Properties of the checksum engine *)

(** C5 (as stated, refuted): on the decimal alphabet, the checksum of
    "7992739871" is not 3. *)
Lemma checksum_7992739871_is_not_3 :
  checksum (lit "7992739871") decimal <> Ok 3.
Proof. vm_compute. discriminate. Qed.

(** C5 (amended): on the decimal alphabet, the checksum of "7992739871" is
    6; 3 is its check digit, and "79927398713" has checksum 0. *)
Theorem checksum_7992739871 :
  checksum (lit "7992739871") decimal = Ok 6
  /\ calc_check_digit (lit "7992739871") decimal = Ok (lit "3")
  /\ checksum (lit "79927398713") decimal = Ok 0.
Proof. repeat split; vm_compute; reflexivity. Qed.

(** C2 (the code at a failing input): on the sixteen-symbol alphabet
    "0123456789abcdef", [calc_check_digit] of "5" is "f", and "5f" has
    checksum 9 over that alphabet, not 0; on the alphabet "ab" the call
    raises on the sequence "a", because the inner checksum runs on the
    decimal alphabet. *)
Theorem calc_check_digit_ignores_alphabet :
  calc_check_digit (lit "5") hexadecimal = Ok (lit "f")
  /\ checksum (lit "5" ++ lit "f") hexadecimal = Ok 9
  /\ calc_check_digit (lit "a") (lit "ab") = Raise SubstringNotFound.
Proof. repeat split; vm_compute; reflexivity. Qed.

(** ** Properties of the generated record *)

(** Every row of a generated frame carries an IMEI and an ICCID of
    checksum zero: the check digits are only computed, and the row only
    built, when both bodies are decimal. *)
Lemma generated_row_luhn (self : RandomPhone.t) (phonenumber : option str)
      (g g' : Random) (frame : Frame) (row : IdentityRow) :
  _get_phone_data self phonenumber g = (Ok frame, g') ->
  In row frame ->
  checksum (cc_imei (assigned row)) decimal = Ok 0
  /\ checksum (cc_iccid (assigned row)) decimal = Ok 0.
Proof.
  intros H Hrow. apply _get_phone_data_inv in H.
  destruct H as (p & d & o & prefix & r & a & b & c & cd1 & cd2 & g1 & H).
  destruct H as (_ & _ & _ & _ & _ & _ & _ & _ & Hcd1 & Hcd2 & ->).
  destruct Hrow as [<-|[]]. cbn [identity_row assigned cc_imei cc_iccid].
  split.
  - apply (calc_check_digit_decimal_valid _ _ Hcd1).
  - apply (calc_check_digit_decimal_valid _ _ Hcd2).
Qed.

(** C1: in every generated identity record whose sampled tac, mcc, mnc and
    line are decimal-digit strings, the IMEI and the ICCID pass Luhn
    validation on the alphabet "0123456789": both checksums are 0. *)
Theorem imei_and_iccid_pass_luhn (self : RandomPhone.t) (phonenumber : option str)
        (g g' : Random) (frame : Frame) (row : IdentityRow) :
  _get_phone_data self phonenumber g = (Ok frame, g') ->
  In row frame ->
  digit_string (bb_tac1 (device (assigned row))) = true ->
  digit_string (aa_mcc (operator row)) = true ->
  digit_string (aa_mnc (operator row)) = true ->
  digit_string (aa_line (operator row)) = true ->
  checksum (cc_imei (assigned row)) decimal = Ok 0
  /\ checksum (cc_iccid (assigned row)) decimal = Ok 0.
Proof.
  intros H Hrow _ _ _ _. exact (generated_row_luhn _ _ _ _ _ _ H Hrow).
Qed.

Lemma imei_and_iccid_pass_luhn_witness :
  exists row g',
    _get_phone_data ex_self ex_phone ex_random = (Ok [row], g')
    /\ cc_imei (assigned row) = lit "354408118779849"
    /\ cc_iccid (assigned row) = lit "89550000112497036872"
    /\ checksum (cc_imei (assigned row)) decimal = Ok 0
    /\ checksum (cc_iccid (assigned row)) decimal = Ok 0.
Proof.
  eexists. eexists.
  split; [vm_compute; reflexivity|].
  split; [reflexivity|]. split; [reflexivity|].
  apply (imei_and_iccid_pass_luhn ex_self ex_phone ex_random _ _ _ eq_refl);
    [left; reflexivity|reflexivity|reflexivity|reflexivity|reflexivity].
Defined.

(** *** Lengths of IMSI, IMEI and ICCID *)

Lemma zfill_length (w : nat) (s : str) : (w <= length (zfill w s))%nat.
Proof.
  unfold zfill. destruct s as [|c rest].
  - rewrite repeat_length. cbn [length]. lia.
  - destruct (char_eqb c "+" || char_eqb c "-"); cbn [length];
      rewrite length_app, repeat_length; cbn [length]; lia.
Qed.

Lemma imei_body_length (tac : str) (r : Z) :
  (8 <= length tac)%nat -> length (imei_body tac r) = 14%nat.
Proof.
  intros H. unfold imei_body, slice_to. rewrite length_firstn, length_app.
  pose proof (zfill_length 6 (str_of_int r)). lia.
Qed.

Lemma iccid_body_length (line mnc p : str) :
  mnc <> [] -> length (iccid_body line mnc p) = 19%nat.
Proof.
  intros H. unfold iccid_body, slice_to.
  rewrite length_firstn, !length_app, !length_firstn, !length_app, !repeat_length.
  destruct mnc as [|c mnc]; [congruence|]. cbn [length lit list_ascii_of_string map]. lia.
Qed.

(** Neither a short tac nor an empty mnc is padded. *)
Example short_fields_give_short_identifiers :
  length (imei_body (lit "1234567") 42) = 13%nat
  /\ length (iccid_body (lit "55") (lit "") (lit "24970368714")) = 18%nat
  /\ length (iccid_body (lit "55") (lit "6") (lit "24970368714")) = 19%nat.
Proof. repeat split; reflexivity. Qed.

(** C7 (as stated, refuted): a seven-digit tac gives an IMEI of fourteen
    characters. *)
Lemma identifier_lengths_counterexample :
  ~ (forall (self : RandomPhone.t) (phonenumber : option str) (g g' : Random)
            (frame : Frame) (row : IdentityRow),
        _get_phone_data self phonenumber g = (Ok frame, g') ->
        In row frame ->
        (length (cc_imsi (assigned row)) <= 15
         /\ length (cc_imei (assigned row)) = 15
         /\ length (cc_iccid (assigned row)) = 20)%nat).
Proof.
  intros H.
  destruct (H ex_self_short ex_phone ex_random _ _ _ eq_refl (or_introl eq_refl))
    as (_ & Himei & _).
  vm_compute in Himei. discriminate Himei.
Qed.

(** C7 (amended): in every generated identity record whose sampled tac has
    at least 8 characters and whose mnc is not empty, the IMSI has at most
    15 characters, the IMEI exactly 15 and the ICCID exactly 20. *)
Theorem identifier_lengths (self : RandomPhone.t) (phonenumber : option str)
        (g g' : Random) (frame : Frame) (row : IdentityRow) :
  _get_phone_data self phonenumber g = (Ok frame, g') ->
  In row frame ->
  (8 <= length (bb_tac1 (device (assigned row))))%nat ->
  aa_mnc (operator row) <> [] ->
  (length (cc_imsi (assigned row)) <= 15
   /\ length (cc_imei (assigned row)) = 15
   /\ length (cc_iccid (assigned row)) = 20)%nat.
Proof.
  intros H Hrow. apply _get_phone_data_inv in H.
  destruct H as (p & d & o & prefix & r & a & b & c & cd1 & cd2 & g1 & H).
  destruct H as (_ & _ & _ & _ & _ & _ & _ & _ & Hcd1 & Hcd2 & ->).
  destruct Hrow as [<-|[]].
  cbn [identity_row assigned operator device cc_imsi cc_imei cc_iccid
       bb_tac1 aa_mnc].
  intros Htac Hmnc.
  apply calc_check_digit_decimal_valid in Hcd1, Hcd2.
  destruct Hcd1 as [_ Hcd1]. destruct Hcd2 as [_ Hcd2].
  rewrite !length_app, Hcd1, Hcd2, imei_body_length, iccid_body_length
    by assumption.
  unfold slice_to. rewrite length_firstn. lia.
Qed.

Lemma identifier_lengths_witness :
  exists row g',
    _get_phone_data ex_self ex_phone ex_random = (Ok [row], g')
    /\ (length (cc_imsi (assigned row)) <= 15
        /\ length (cc_imei (assigned row)) = 15
        /\ length (cc_iccid (assigned row)) = 20)%nat.
Proof.
  eexists. eexists.
  split; [vm_compute; reflexivity|].
  apply (identifier_lengths ex_self ex_phone ex_random _ _ _ eq_refl);
    [left; reflexivity|vm_compute; lia|discriminate].
Defined.

(** *** The MAC address *)

Lemma octets_ok : forallb octet_ok (map Z.of_nat (seq 0 256)) = true.
Proof. vm_compute. reflexivity. Qed.

Lemma fmt_02x_octet (n : Z) :
  0 <= n <= 255 ->
  exists x y, upper (fmt_02x n) = [x; y]
              /\ is_upper_hex x = true /\ is_upper_hex y = true.
Proof.
  intros H. pose proof octets_ok as Hall. rewrite forallb_forall in Hall.
  specialize (Hall n). unfold octet_ok in Hall.
  destruct (upper (fmt_02x n)) as [|x [|y [|z rest]]];
    try (discriminate Hall; fail).
  - exfalso. assert (false = true); [|discriminate]. apply Hall.
    replace n with (Z.of_nat (Z.to_nat n)) by lia.
    apply in_map, in_seq. lia.
  - exfalso. assert (false = true); [|discriminate]. apply Hall.
    replace n with (Z.of_nat (Z.to_nat n)) by lia.
    apply in_map, in_seq. lia.
  - exists x, y. split; [reflexivity|]. apply andb_true_iff. apply Hall.
    replace n with (Z.of_nat (Z.to_nat n)) by lia.
    apply in_map, in_seq. lia.
  - exfalso. assert (false = true); [|discriminate]. apply Hall.
    replace n with (Z.of_nat (Z.to_nat n)) by lia.
    apply in_map, in_seq. lia.
Qed.

Lemma upper_app (s t : str) : upper (s ++ t) = upper s ++ upper t.
Proof. apply map_app. Qed.

Lemma upper_fmt_octets (a b c : Z) :
  0 <= a <= 255 -> 0 <= b <= 255 -> 0 <= c <= 255 ->
  exists a1 a2 b1 b2 c1 c2,
    upper (fmt_octets a b c)
    = [":"%char; a1; a2; ":"%char; b1; b2; ":"%char; c1; c2]
    /\ forallb is_upper_hex [a1; a2; b1; b2; c1; c2] = true.
Proof.
  intros Ha Hb Hc.
  destruct (fmt_02x_octet a Ha) as (a1 & a2 & Ea & Ha1 & Ha2).
  destruct (fmt_02x_octet b Hb) as (b1 & b2 & Eb & Hb1 & Hb2).
  destruct (fmt_02x_octet c Hc) as (c1 & c2 & Ec & Hc1 & Hc2).
  exists a1, a2, b1, b2, c1, c2. split.
  - unfold fmt_octets. rewrite !upper_app, Ea, Eb, Ec. reflexivity.
  - cbn [forallb]. rewrite Ha1, Ha2, Hb1, Hb2, Hc1, Hc2. reflexivity.
Qed.

Lemma upper_char_hex (c : char) :
  is_hex c = true -> is_upper_hex (upper_char c) = true.
Proof.
  destruct c as [[[] [] [] [] [] [] [] []]|code]; intros H; vm_compute in H;
    try discriminate H; reflexivity.
Qed.

Lemma upper_char_colon (c : char) :
  char_eqb c ":" = true -> char_eqb (upper_char c) ":" = true.
Proof.
  destruct c as [[[] [] [] [] [] [] [] []]|code]; intros H; vm_compute in H;
    try discriminate H; reflexivity.
Qed.

Lemma mac_shape_upper (pos : nat) (s : str) :
  mac_shape is_hex pos s = true -> mac_shape is_upper_hex pos (upper s) = true.
Proof.
  revert pos. induction s as [|c s IH]; intros pos H; [reflexivity|].
  cbn [mac_shape upper map] in *. apply andb_true_iff in H. destruct H as [Hc Hs].
  apply andb_true_iff. split; [|apply IH; exact Hs].
  destruct (pos mod 3 =? 2)%nat; [apply upper_char_colon|apply upper_char_hex];
    exact Hc.
Qed.

Lemma mac_shape_app (hex : char -> bool) (pos : nat) (s t : str) :
  mac_shape hex pos (s ++ t)
  = mac_shape hex pos s && mac_shape hex (length s + pos) t.
Proof.
  revert pos. induction s as [|c s IH]; intros pos; [reflexivity|].
  cbn [mac_shape app length]. rewrite IH, andb_assoc.
  replace (length s + S pos)%nat with (S (length s + pos)) by lia. reflexivity.
Qed.

Lemma mac_shape_skipn (hex : char -> bool) (j pos : nat) (s : str) :
  mac_shape hex pos s = true -> mac_shape hex (j + pos) (skipn j s) = true.
Proof.
  revert pos s. induction j as [|j IH]; intros pos s H; [exact H|].
  destruct s as [|c s]; [reflexivity|].
  cbn [skipn]. cbn [mac_shape] in H. apply andb_true_iff in H.
  replace (S j + pos)%nat with (j + S pos)%nat by lia. apply IH. tauto.
Qed.

Lemma slice_from_tail {A} (s : list A) (n : nat) :
  length s = 9%nat -> (8 <= n <= 16)%nat ->
  slice_from (- (17 - Z.of_nat n)) s = skipn (n - 8) s.
Proof.
  intros Hs Hn. unfold slice_from. rewrite Hs.
  destruct (- (17 - Z.of_nat n) <? 0) eqn:E; [|apply Z.ltb_ge in E; lia].
  f_equal. lia.
Qed.

(** The address built on a prefix of 8 to 16 characters. *)
Lemma mac_of_tail (prefix : str) (a b c : Z) :
  0 <= a <= 255 -> 0 <= b <= 255 -> 0 <= c <= 255 ->
  (8 <= length prefix <= 16)%nat ->
  mac_of prefix a b c
  = upper prefix ++ skipn (length prefix - 8) (upper (fmt_octets a b c))
  /\ length (upper (fmt_octets a b c)) = 9%nat
  /\ mac_shape is_upper_hex 8 (upper (fmt_octets a b c)) = true.
Proof.
  intros Ha Hb Hc Hlen.
  destruct (upper_fmt_octets a b c Ha Hb Hc)
    as (a1 & a2 & b1 & b2 & c1 & c2 & E & Hhex).
  assert (H9 : length (fmt_octets a b c) = 9%nat).
  { rewrite <- (length_map upper_char). fold (upper (fmt_octets a b c)).
    rewrite E. reflexivity. }
  split; [|split].
  - unfold mac_of, len. rewrite upper_app, slice_from_tail by assumption.
    f_equal. unfold upper. symmetry. apply skipn_map.
  - rewrite E. reflexivity.
  - rewrite E. cbn [forallb] in Hhex.
    repeat (apply andb_true_iff in Hhex; destruct Hhex as [? Hhex]).
    cbn. repeat (apply andb_true_iff; split); assumption || reflexivity.
Qed.

(** C6 (as stated, refuted): on the five-character prefix "00:0A" the
    address has fourteen characters. *)
Lemma mac_address_counterexample :
  ~ (forall (self : RandomPhone.t) (phonenumber : option str) (g g' : Random)
            (frame : Frame) (row : IdentityRow),
        _get_phone_data self phonenumber g = (Ok frame, g') ->
        In row frame ->
        length (cc_macaddress (assigned row)) = 17%nat
        /\ mac_shape is_upper_hex 0 (cc_macaddress (assigned row)) = true).
Proof.
  intros H.
  destruct (H ex_self_short ex_phone ex_random _ _ _ eq_refl (or_introl eq_refl))
    as (Hlen & _).
  vm_compute in Hlen. discriminate Hlen.
Qed.

(** C6 (amended): in every generated identity record whose sampled MAC
    vendor prefix is a hex-colon string of 8 to 16 characters, the MAC
    address has exactly 17 characters, uppercase hexadecimal with colons at
    positions 2, 5, 8, 11 and 14; it starts with the uppercased prefix and
    ends with the last characters of three random octets, each from 0 to
    255, formatted as ":xx:xx:xx" in uppercase. *)
Theorem mac_address_shape (self : RandomPhone.t) (phonenumber : option str)
        (g g' : Random) (frame : Frame) (row : IdentityRow) (prefix : str) :
  _get_phone_data self phonenumber g = (Ok frame, g') ->
  In row frame ->
  bb_mac_prefix (device (assigned row)) = Some prefix ->
  (8 <= length prefix <= 16)%nat ->
  mac_shape is_hex 0 prefix = true ->
  length (cc_macaddress (assigned row)) = 17%nat
  /\ mac_shape is_upper_hex 0 (cc_macaddress (assigned row)) = true
  /\ firstn (length prefix) (cc_macaddress (assigned row)) = upper prefix
  /\ exists a b c,
       0 <= a <= 255 /\ 0 <= b <= 255 /\ 0 <= c <= 255
       /\ skipn (length prefix) (cc_macaddress (assigned row))
          = skipn (length prefix - 8) (upper (fmt_octets a b c)).
Proof.
  intros H Hrow. apply _get_phone_data_inv in H.
  destruct H as (p & d & o & prefix' & r & a & b & c & cd1 & cd2 & g1 & H).
  destruct H as (_ & _ & _ & Hmac & _ & Ha & Hb & Hc & _ & _ & ->).
  destruct Hrow as [<-|[]].
  cbn [identity_row assigned device cc_macaddress].
  intros Hprefix Hlen Hshape.
  assert (prefix' = prefix) by congruence. subst prefix'.
  destruct (mac_of_tail prefix a b c Ha Hb Hc Hlen) as (E & H9 & Htail).
  rewrite E.
  assert (Hup : length (upper prefix) = length prefix) by apply length_map.
  split; [|split; [|split]].
  - rewrite length_app, length_skipn, Hup, H9. lia.
  - rewrite mac_shape_app, Hup, (mac_shape_upper 0 prefix Hshape). cbn [andb].
    replace (length prefix + 0)%nat with ((length prefix - 8) + 8)%nat by lia.
    apply mac_shape_skipn. exact Htail.
  - rewrite <- Hup at 1. rewrite firstn_app, Nat.sub_diag, firstn_all.
    cbn [firstn]. apply app_nil_r.
  - exists a, b, c. repeat (split; [assumption|]).
    rewrite <- Hup at 1. rewrite skipn_app, Nat.sub_diag, skipn_all.
    reflexivity.
Qed.

Lemma mac_address_shape_witness :
  exists row g',
    _get_phone_data ex_self ex_phone ex_random = (Ok [row], g')
    /\ cc_macaddress (assigned row) = lit "00:0A:00:8F:7E:6D"
    /\ length (cc_macaddress (assigned row)) = 17%nat
    /\ mac_shape is_upper_hex 0 (cc_macaddress (assigned row)) = true
    /\ firstn (length (lit "00:0A:00")) (cc_macaddress (assigned row))
       = upper (lit "00:0A:00")
    /\ exists a b c,
         0 <= a <= 255 /\ 0 <= b <= 255 /\ 0 <= c <= 255
         /\ skipn (length (lit "00:0A:00")) (cc_macaddress (assigned row))
            = skipn (length (lit "00:0A:00") - 8) (upper (fmt_octets a b c)).
Proof.
  eexists. eexists.
  split; [vm_compute; reflexivity|]. split; [reflexivity|].
  apply (mac_address_shape ex_self ex_phone ex_random _ _ _ (lit "00:0A:00") eq_refl);
    [left; reflexivity|reflexivity|vm_compute; lia|reflexivity].
Defined.

(** ** Properties of the retry loop *)

(** While every synthesis raises, the loop of [get_phone_data] is never
    left: no amount of fuel gives a result or an exception. *)
Lemma collect_all_raise (self : RandomPhone.t) (phonenumber : option str) (qty : Z) :
  (forall g, exists e g', _get_phone_data self phonenumber g = (Raise e, g')) ->
  forall fuel allresults g,
    Z.of_nat (length allresults) < qty ->
    fst (collect fuel self phonenumber qty allresults g) = None.
Proof.
  intros Hraise. induction fuel as [|fuel IH]; intros allresults g Hlt;
    cbn [collect]; apply Z.ltb_lt in Hlt as Hb; rewrite Hb; [reflexivity|].
  destruct (Hraise g) as (e & g' & E). rewrite E. apply IH. exact Hlt.
Qed.

Lemma get_phone_data_all_raise (self : RandomPhone.t) (phonenumber : option str)
      (qty : Z) :
  (forall g, exists e g', _get_phone_data self phonenumber g = (Raise e, g')) ->
  1 <= qty ->
  forall fuel g, fst (get_phone_data fuel self phonenumber qty g) = None.
Proof.
  intros Hraise Hqty fuel g. unfold get_phone_data.
  pose proof (collect_all_raise self phonenumber qty Hraise fuel [] g) as H.
  cbn [length] in H. specialize (H ltac:(lia)).
  destruct (collect fuel self phonenumber qty [] g) as [[all|] g'];
    [discriminate H|reflexivity].
Qed.

Lemma _get_phone_number_missing (self : RandomPhone.t) (phonenumber : option str)
      (g : Random) :
  truthy phonenumber = false ->
  phone_format_without_country self = [] ->
  _get_phone_number self phonenumber g = (Raise NeedPhoneNumber, g).
Proof.
  intros Ht Hf. unfold _get_phone_number. rewrite Ht, Hf. reflexivity.
Qed.

(** C3 (the code at the failing inputs): with no phone number given and no
    format configured, [_get_phone_data] raises the ValueError of
    [_get_phone_number] at once, and [get_phone_data] with a count of at
    least 1 catches it on every pass: the call neither returns nor raises,
    whatever the fuel. *)
Theorem missing_phone_number_is_retried_forever
        (self : RandomPhone.t) (phonenumber : option str) (qty : Z) :
  truthy phonenumber = false ->
  phone_format_without_country self = [] ->
  1 <= qty ->
  (forall g, _get_phone_data self phonenumber g = (Raise NeedPhoneNumber, g))
  /\ (forall fuel g, fst (get_phone_data fuel self phonenumber qty g) = None).
Proof.
  intros Ht Hf Hqty.
  assert (Hraise : forall g,
             _get_phone_data self phonenumber g = (Raise NeedPhoneNumber, g)).
  { intros g. unfold _get_phone_data.
    apply bind_raise, _get_phone_number_missing; assumption. }
  split; [exact Hraise|].
  apply get_phone_data_all_raise; [|exact Hqty].
  intros g. exists NeedPhoneNumber, g. apply Hraise.
Qed.

Lemma missing_phone_number_is_retried_forever_witness :
  (forall g, _get_phone_data ex_self None g = (Raise NeedPhoneNumber, g))
  /\ (forall fuel g, fst (get_phone_data fuel ex_self None 1 g) = None).
Proof.
  apply (missing_phone_number_is_retried_forever ex_self None 1);
    [reflexivity|reflexivity|lia].
Defined.

(** C10: with [qty] equal to 0 the loop body is never entered, the list of
    results is empty, and the call ends in the ValueError that [pd.concat]
    raises on an empty list; no empty collection is returned. *)
Theorem get_phone_data_zero_raises (fuel : nat) (self : RandomPhone.t)
        (phonenumber : option str) (g : Random) :
  collect fuel self phonenumber 0 [] g = (Some [], g)
  /\ get_phone_data fuel self phonenumber 0 g = (Some (Raise NoObjectsToConcatenate), g).
Proof.
  assert (H : collect fuel self phonenumber 0 [] g = (Some [], g))
    by (destruct fuel; reflexivity).
  split; [exact H|]. unfold get_phone_data. rewrite H. reflexivity.
Qed.

(** ** Properties of construction *)

Lemma traverse_Ok_each {A B} (f : A -> result B) (xs : list A) (ys : list B) :
  traverse f xs = Ok ys -> forall x, In x xs -> exists y, f x = Ok y.
Proof.
  revert ys. induction xs as [|a xs IH]; intros ys H x Hx; [destruct Hx|].
  cbn [traverse] in H. destruct (f a) as [b|e] eqn:Ea; [|discriminate H].
  cbn [rbind] in H. destruct (traverse f xs) as [zs|e] eqn:Ezs; [|discriminate H].
  destruct Hx as [<-|Hx]; [eauto|]. apply (IH zs eq_refl x Hx).
Qed.

Section Constructed.

Variable phoneswithtac : list DeviceRow.
Variable phonecodescountry : list OperatorRow.
Variable re_valid : str -> bool.
Variable re_search : str -> str -> bool.

(** What a successful construction establishes. *)
Lemma __init___Ok (country : str) (fmt : list (list str)) (self : RandomPhone.t) :
  __init__ phoneswithtac phonecodescountry re_valid re_search country fmt = Ok self ->
  Forall (fun chunk => chunk <> []) (phone_format_without_country self)
  /\ df self = phoneswithtac
  /\ df2 self
     = filter (fun row => match aa_country row with
                          | Some name => re_search country name
                          | None => false
                          end) phonecodescountry.
Proof.
  unfold __init__. intros H.
  destruct (traverse _ fmt) as [tmp|e] eqn:E; [|discriminate H].
  cbn [rbind] in H. destruct (re_valid country); [|discriminate H].
  injection H as <-.
  cbn [phone_format_without_country df df2].
  split; [|split; reflexivity].
  apply Forall_forall. intros chunk Hc.
  apply in_map_iff in Hc. destruct Hc as ([x w] & <- & Hxw).
  apply in_combine_l in Hxw. cbn [fst snd].
  destruct (traverse_Ok_each _ _ _ E x Hxw) as [y Hy].
  destruct x as [|c x]; [discriminate Hy|]. discriminate.
Qed.

(** C4 (amended): when no operator row matches the country, construction
    leaves an empty operator table, and a single synthesis raises a
    ValueError: the one of [_get_phone_number] when no phone number can
    be built, else the one that sampling an empty table raises. There is
    no error of its own for missing operator data. *)
Theorem no_matching_operator_rows
        (country : str) (fmt : list (list str)) (self : RandomPhone.t) :
  (forall row name,
      In row phonecodescountry -> aa_country row = Some name ->
      re_search country name = false) ->
  __init__ phoneswithtac phonecodescountry re_valid re_search country fmt = Ok self ->
  df2 self = []
  /\ forall phonenumber g,
       exists e g',
         _get_phone_data self phonenumber g = (Raise e, g')
         /\ class_of e = ValueError
         /\ (truthy phonenumber = false ->
             phone_format_without_country self = [] -> e = NeedPhoneNumber)
         /\ (truthy phonenumber = true \/ phone_format_without_country self <> [] ->
             e = EmptySample).
Proof.
  intros Hnone Hinit.
  destruct (__init___Ok country fmt self Hinit) as (Hchunks & _ & Hdf2).
  assert (Hempty : df2 self = []).
  { rewrite Hdf2. clear Hdf2 Hinit.
    induction phonecodescountry as [|row rows IH]; [reflexivity|].
    cbn [filter]. destruct (aa_country row) as [name|] eqn:Ename.
    - rewrite (Hnone row name (or_introl eq_refl) Ename).
      apply IH. intros r n Hr. apply Hnone. right. exact Hr.
    - apply IH. intros r n Hr. apply Hnone. right. exact Hr. }
  split; [exact Hempty|]. intros phonenumber g.
  destruct (truthy phonenumber) eqn:Ht;
    [|destruct (phone_format_without_country self) as [|chunk rest] eqn:Ef].
  - destruct (_get_phone_number_total self phonenumber g (or_introl Ht))
      as (p & g1 & Hp).
    unfold _get_phone_data. rewrite (bind_run _ _ _ _ _ Hp).
    destruct (df self) as [|d ds].
    + exists EmptySample, g1. repeat split; try reflexivity. discriminate.
    + rewrite Hempty. eexists EmptySample, _. repeat split; try reflexivity.
      discriminate.
  - exists NeedPhoneNumber, g. split; [|repeat split].
    + unfold _get_phone_data. apply bind_raise, _get_phone_number_missing;
        assumption.
    + intros [E|E]; [discriminate E|congruence].
  - destruct (_get_phone_number_total self phonenumber g) as (p & g1 & Hp).
    { right. rewrite Ef. split; [discriminate|exact Hchunks]. }
    unfold _get_phone_data. rewrite (bind_run _ _ _ _ _ Hp).
    destruct (df self) as [|d ds].
    + exists EmptySample, g1. repeat split; try reflexivity. discriminate.
    + rewrite Hempty. eexists EmptySample, _. repeat split; try reflexivity.
      discriminate.
Qed.

(** C9: for a synthesizer constructed with the format
    [["11","12"], ["9"], ["0001"]], and no phone number given, the chunks
    are kept as they are and every phone number built is "1190001" or
    "1290001". *)
Theorem phone_number_from_format (country : str) (self : RandomPhone.t) :
  __init__ phoneswithtac phonecodescountry re_valid re_search country
           [[lit "11"; lit "12"]; [lit "9"]; [lit "0001"]] = Ok self ->
  phone_format_without_country self
  = [[lit "11"; lit "12"]; [lit "9"]; [lit "0001"]]
  /\ forall g,
       exists p g',
         _get_phone_number self None g = (Ok p, g')
         /\ (p = lit "1190001" \/ p = lit "1290001").
Proof.
  intros Hinit.
  assert (Hf : phone_format_without_country self
               = [[lit "11"; lit "12"]; [lit "9"]; [lit "0001"]]).
  { unfold __init__ in Hinit.
    change (traverse _ [[lit "11"; lit "12"]; [lit "9"]; [lit "0001"]])
      with (Ok [2%nat; 1%nat; 4%nat] : result (list nat)) in Hinit.
    cbn [rbind] in Hinit. destruct (re_valid country); [|discriminate Hinit].
    injection Hinit as <-. reflexivity. }
  split; [exact Hf|]. intros g.
  unfold _get_phone_number. cbn [truthy]. rewrite Hf.
  destruct (for_each_choice_total
              [[lit "11"; lit "12"]; [lit "9"]; [lit "0001"]] g)
    as (picked & g1 & Hrun & Hall).
  { repeat constructor; discriminate. }
  exists (strip_non_digits (concat picked)), g1. split.
  - unfold bind at 1. unfold bind at 1. rewrite Hrun. reflexivity.
  - inversion Hall as [|x1 c1 r1 rc1 H1 Hall1]; subst.
    inversion Hall1 as [|x2 c2 r2 rc2 H2 Hall2]; subst.
    inversion Hall2 as [|x3 c3 r3 rc3 H3 Hall3]; subst.
    inversion Hall3; subst.
    destruct H2 as [<-|[]]. destruct H3 as [<-|[]].
    destruct H1 as [<-|[<-|[]]]; [left|right]; reflexivity.
Qed.

End Constructed.

Lemma phone_number_from_format_witness :
  __init__ [ex_device] [ex_operator] ex_valid ex_search (lit "Brazil")
           [[lit "11"; lit "12"]; [lit "9"]; [lit "0001"]] = Ok ex_self_format
  /\ phone_format_without_country ex_self_format
     = [[lit "11"; lit "12"]; [lit "9"]; [lit "0001"]]
  /\ forall g,
       exists p g',
         _get_phone_number ex_self_format None g = (Ok p, g')
         /\ (p = lit "1190001" \/ p = lit "1290001").
Proof.
  split; [reflexivity|].
  apply (phone_number_from_format [ex_device] [ex_operator] ex_valid ex_search
                                  (lit "Brazil") ex_self_format).
  reflexivity.
Defined.

(** C4 (as stated, refuted): constructed for "Atlantis" over a table that
    only knows Brazil, the synthesizer has an empty operator table; a
    generation call for one record never hands any failure to its caller,
    and the single synthesis raises the same error as on an empty device
    table, not one of its own. *)
Lemma no_operator_data_counterexample :
  __init__ [ex_device] [ex_operator] ex_valid ex_search (lit "Atlantis") [] = Ok ex_atlantis
  /\ df2 ex_atlantis = []
  /\ ~ (exists fuel e g',
           get_phone_data fuel ex_atlantis ex_phone 1 ex_random = (Some (Raise e), g'))
  /\ fst (_get_phone_data ex_atlantis ex_phone ex_random) = Raise EmptySample
  /\ fst (_get_phone_data (RandomPhone.mk (lit "Brazil") [] [] [ex_operator])
                          ex_phone ex_random) = Raise EmptySample.
Proof.
  split; [reflexivity|]. split; [reflexivity|].
  split; [|split; reflexivity].
  intros (fuel & e & g' & H).
  assert (Hnone : fst (get_phone_data fuel ex_atlantis ex_phone 1 ex_random) = None).
  { apply get_phone_data_all_raise; [|lia].
    intros g. eexists EmptySample, _. reflexivity. }
  rewrite H in Hnone. discriminate Hnone.
Qed.

Lemma no_matching_operator_rows_witness :
  df2 ex_atlantis = []
  /\ forall phonenumber g,
       exists e g',
         _get_phone_data ex_atlantis phonenumber g = (Raise e, g')
         /\ class_of e = ValueError
         /\ (truthy phonenumber = false ->
             phone_format_without_country ex_atlantis = [] -> e = NeedPhoneNumber)
         /\ (truthy phonenumber = true \/ phone_format_without_country ex_atlantis <> [] ->
             e = EmptySample).
Proof.
  apply (no_matching_operator_rows [ex_device] [ex_operator] ex_valid ex_search
                                   (lit "Atlantis") [] ex_atlantis).
  - intros row name [<-|[]] E. injection E as <-. reflexivity.
  - reflexivity.
Defined.

(** ** The number of records returned *)

Lemma generated_one_row (self : RandomPhone.t) (phonenumber : option str)
      (frame : Frame) :
  generated self phonenumber frame -> length frame = 1%nat.
Proof.
  intros (g & g' & H). apply _get_phone_data_inv in H.
  destruct H as (p & d & o & prefix & r & a & b & c & cd1 & cd2 & g1 & H).
  destruct H as (_ & _ & _ & _ & _ & _ & _ & _ & _ & _ & ->). reflexivity.
Qed.

Lemma concat_one_row_frames (self : RandomPhone.t) (phonenumber : option str)
      (frames : list Frame) :
  Forall (generated self phonenumber) frames ->
  length (concat frames) = length frames.
Proof.
  induction 1 as [|frame frames Hf _ IH]; [reflexivity|].
  cbn [concat length]. rewrite length_app, IH, (generated_one_row _ _ _ Hf).
  reflexivity.
Qed.

(** When the loop is left, it holds [qty] frames, each one the result of a
    synthesis, in the order they were made. *)
Lemma collect_sound (self : RandomPhone.t) (phonenumber : option str) (qty : Z) :
  forall fuel allresults g frames g',
    collect fuel self phonenumber qty allresults g = (Some frames, g') ->
    Forall (generated self phonenumber) allresults ->
    Z.of_nat (length allresults) <= qty ->
    Forall (generated self phonenumber) frames /\ Z.of_nat (length frames) = qty.
Proof.
  induction fuel as [|fuel IH]; intros allresults g frames g' H Hall Hle;
    cbn [collect] in H;
    destruct (Z.of_nat (length allresults) <? qty) eqn:Hlt.
  - discriminate H.
  - apply Z.ltb_ge in Hlt. injection H as <- _. split; [exact Hall|lia].
  - apply Z.ltb_lt in Hlt.
    destruct (_get_phone_data self phonenumber g) as [[frame|e] g1] eqn:Hrun.
    + apply (IH _ _ _ _ H).
      * apply Forall_app. split; [exact Hall|].
        constructor; [|constructor]. exists g, g1. exact Hrun.
      * rewrite length_app. cbn [length]. lia.
    + apply (IH _ _ _ _ H Hall Hle).
  - apply Z.ltb_ge in Hlt. injection H as <- _. split; [exact Hall|lia].
Qed.


(** What [get_phone_data] hands over is what the loop collected. *)
Lemma get_phone_data_sound (self : RandomPhone.t) (phonenumber : option str)
      (qty : Z) (fuel : nat) (g g' : Random) (out : result Frame) :
  1 <= qty ->
  get_phone_data fuel self phonenumber qty g = (Some out, g') ->
  qty_records self phonenumber qty out.
Proof.
  intros Hqty H. unfold get_phone_data in H.
  destruct (collect fuel self phonenumber qty [] g) as [[frames|] g1] eqn:Hc;
    [|discriminate H].
  apply collect_sound in Hc; [|constructor|cbn [length]; lia].
  destruct Hc as [Hall Hlen].
  exists frames. split; [exact Hall|].
  assert (Hone : Forall (fun frame => length frame = 1%nat) frames).
  { rewrite Forall_forall in *. intros f Hf.
    exact (generated_one_row _ _ _ (Hall f Hf)). }
  split; [exact Hone|]. split; [exact Hlen|].
  pose proof (concat_one_row_frames _ _ _ Hall) as Hrows.
  destruct frames as [|f [|f' rest]].
  - cbn [length] in Hlen. lia.
  - cbn [length Nat.eqb] in H. injection H as <- _.
    assert (Hf : subscript [f] 0 = Ok f) by reflexivity.
    cbn [concat] in *. rewrite app_nil_r in *.
    cbn [length] in Hlen, Hrows.
    split; [exact Hf|]. split; [lia|]. split; [|intros Hgt; lia].
    intros _. exists f. split; [reflexivity|]. split; [reflexivity|].
    split; [exact Hf|]. split; [|apply (Forall_inv Hall)].
    cbn [pd_concat concat]. rewrite app_nil_r. reflexivity.
  - cbn [length Nat.eqb] in H. injection H as <- _.
    split; [reflexivity|]. split; [lia|]. split; [|intros _; reflexivity].
    intros E. cbn [length] in Hlen. lia.
Qed.

(** Every row that [get_phone_data] hands over passes Luhn validation. *)
Lemma get_phone_data_rows_pass_luhn (self : RandomPhone.t) (phonenumber : option str)
      (qty : Z) (fuel : nat) (g g' : Random) (frame : Frame) (row : IdentityRow) :
  1 <= qty ->
  get_phone_data fuel self phonenumber qty g = (Some (Ok frame), g') ->
  In row frame ->
  checksum (cc_imei (assigned row)) decimal = Ok 0
  /\ checksum (cc_iccid (assigned row)) decimal = Ok 0.
Proof.
  intros Hqty H Hrow.
  destruct (get_phone_data_sound _ _ _ _ _ _ _ Hqty H)
    as (frames & Hall & _ & _ & E & _).
  injection E as ->. apply in_concat in Hrow. destruct Hrow as (f & Hf & Hrow).
  rewrite Forall_forall in Hall. destruct (Hall f Hf) as (g0 & g1 & Hrun).
  exact (generated_row_luhn _ _ _ _ _ _ Hrun Hrow).
Qed.






(** The loop run on the example tables, for one record and for two. *)
Example get_phone_data_one_and_two :
  (exists row g',
      _get_phone_data ex_self ex_phone ex_random = (Ok [row], g')
      /\ get_phone_data 1 ex_self ex_phone 1 ex_random = (Some (Ok [row]), g'))
  /\ (exists row1 row2 g',
         get_phone_data 2 ex_self ex_phone 2 ex_random = (Some (Ok [row1; row2]), g')).
Proof.
  split; [eexists; eexists; split|eexists; eexists; eexists]; vm_compute; reflexivity.
Qed.

(** * Further properties *)

(** ** The checksum, position by position *)

Lemma luhn_strides_weighted (n : Z) (indices : list Z) :
  sum (stride2 indices)
  + sum (map (fun i => (i * 2) / n + (i * 2) mod n) (stride2_from1 indices))
  = luhn_weighted false n indices
  /\ sum (stride2_from1 indices)
     + sum (map (fun i => (i * 2) / n + (i * 2) mod n) (stride2 indices))
     = luhn_weighted true n indices.
Proof.
  induction indices as [|i rest [IHa IHb]].
  - split; reflexivity.
  - rewrite stride2_cons, stride2_from1_cons. cbn [luhn_weighted negb map].
    rewrite !sum_cons, <- IHa, <- IHb.
    set (a := sum (stride2 rest)). set (b := sum (stride2_from1 rest)).
    set (c := sum (map _ (stride2 rest))). set (d := sum (map _ (stride2_from1 rest))).
    set (e := i * 2 / n + (i * 2) mod n).
    split; lia.
Qed.

Lemma luhn_total_weighted (n : Z) (indices : list Z) :
  luhn_total n indices = luhn_weighted false n indices.
Proof. apply luhn_strides_weighted. Qed.

Lemma luhn_weighted_app (doubled : bool) (n : Z) (l1 l2 : list Z) :
  luhn_weighted doubled n (l1 ++ l2)
  = luhn_weighted doubled n l1
    + luhn_weighted (xorb doubled (Nat.odd (length l1))) n l2.
Proof.
  revert doubled. induction l1 as [|i l1 IH]; intros doubled.
  - cbn [app luhn_weighted length Nat.odd]. rewrite xorb_false_r. lia.
  - cbn [app luhn_weighted length]. rewrite IH, Nat.odd_succ, <- Nat.negb_odd.
    replace (xorb (negb doubled) (Nat.odd (length l1)))
      with (xorb doubled (negb (Nat.odd (length l1))))
      by (destruct doubled, (Nat.odd (length l1)); reflexivity).
    apply Z.add_assoc.
Qed.

Lemma traverse_app {A B} (f : A -> result B) (xs ys : list A) :
  traverse f (xs ++ ys)
  = rbind (traverse f xs) (fun xs' =>
    rbind (traverse f ys) (fun ys' => Ok (xs' ++ ys'))).
Proof.
  induction xs as [|x xs IH]; cbn [app traverse].
  - cbn [rbind]. destruct (traverse f ys); reflexivity.
  - destruct (f x) as [y|e]; cbn [rbind]; [|reflexivity].
    rewrite IH. destruct (traverse f xs) as [xs'|e]; cbn [rbind]; [|reflexivity].
    destruct (traverse f ys); reflexivity.
Qed.

Lemma checksum_weighted (number alphabet : str) :
  checksum number alphabet
  = rbind (traverse (index alphabet) (rev number)) (fun indices =>
      if len alphabet =? 0 then Raise ZeroDivision
      else Ok (luhn_weighted false (len alphabet) indices mod len alphabet)).
Proof.
  unfold checksum. cbn [to_str].
  destruct (traverse (index alphabet) (rev number)) as [indices|e];
    cbn [rbind]; [|reflexivity].
  destruct (len alphabet =? 0); [reflexivity|].
  fold (luhn_total (len alphabet) indices). rewrite luhn_total_weighted. reflexivity.
Qed.

(** ** Symbols and their indices *)

Lemma index_In (alphabet : str) (c : char) (i : Z) :
  index alphabet c = Ok i -> nth_error alphabet (Z.to_nat i) = Some c.
Proof.
  revert i. induction alphabet as [|a rest IH]; intros i H; cbn [index] in H.
  - discriminate H.
  - destruct (char_eqb a c) eqn:E.
    + apply char_eqb_eq in E. assert (i = 0) by congruence. subst. reflexivity.
    + destruct (index rest c) as [j|e] eqn:Ej; cbn [rbind] in H; [|discriminate H].
      assert (i = 1 + j) by congruence. subst i.
      pose proof (index_bounds rest c j Ej) as Hj.
      replace (Z.to_nat (1 + j)) with (S (Z.to_nat j)) by lia.
      cbn [nth_error]. apply IH. reflexivity.
Qed.

Lemma index_total (alphabet : str) (c : char) :
  In c alphabet -> exists i, index alphabet c = Ok i.
Proof.
  induction alphabet as [|a rest IH]; intros H; [destruct H|].
  cbn [index]. destruct (char_eqb a c) eqn:E; [eauto|].
  destruct H as [H|H]; [apply char_eqb_neq in E; congruence|].
  destruct (IH H) as [i Hi]. rewrite Hi. cbn [rbind]. eauto.
Qed.

Lemma index_raises (alphabet : str) (c : char) (e : exn) :
  index alphabet c = Raise e -> e = SubstringNotFound /\ ~ In c alphabet.
Proof.
  induction alphabet as [|a rest IH]; cbn [index]; intros H.
  - split; [congruence|intros []].
  - destruct (char_eqb a c) eqn:E; [discriminate H|].
    destruct (index rest c) as [j|e'] eqn:Ej; cbn [rbind] in H; [discriminate H|].
    assert (e' = e) by congruence. subst e'.
    destruct (IH eq_refl) as [He Hn]. split; [exact He|].
    intros [Ha|Hr]; [apply char_eqb_neq in E; congruence|tauto].
Qed.

Lemma index_nth_NoDup (alphabet : str) (k : nat) (c : char) :
  NoDup alphabet -> nth_error alphabet k = Some c ->
  index alphabet c = Ok (Z.of_nat k).
Proof.
  intros Hnd. revert k. induction Hnd as [|a rest Hnotin Hnd IH]; intros k H.
  - destruct k; discriminate H.
  - cbn [index]. destruct k as [|k]; cbn [nth_error] in H.
    + assert (a = c) by congruence. subst. rewrite char_eqb_refl. reflexivity.
    + destruct (char_eqb a c) eqn:E.
      * apply char_eqb_eq in E. subst. apply nth_error_In in H. tauto.
      * rewrite (IH k H). cbn [rbind]. f_equal. lia.
Qed.

Lemma traverse_index_Ok (alphabet : str) (symbols : str) (indices : list Z) :
  traverse (index alphabet) symbols = Ok indices ->
  forall c, In c symbols -> In c alphabet.
Proof.
  intros H c Hc. destruct (traverse_Ok_each _ _ _ H c Hc) as [i Hi].
  apply index_In in Hi. apply nth_error_In in Hi. exact Hi.
Qed.

Lemma traverse_index_raises (alphabet : str) (symbols : str) (e : exn) :
  traverse (index alphabet) symbols = Raise e ->
  e = SubstringNotFound /\ exists c, In c symbols /\ ~ In c alphabet.
Proof.
  induction symbols as [|c rest IH]; cbn [traverse]; intros H; [discriminate H|].
  destruct (index alphabet c) as [i|e'] eqn:Ei; cbn [rbind] in H.
  - destruct (traverse (index alphabet) rest) as [idxs|e'] eqn:Er; cbn [rbind] in H;
      [discriminate H|].
    assert (e' = e) by congruence. subst e'.
    destruct (IH eq_refl) as (He & c' & Hc' & Hn).
    split; [exact He|]. exists c'. split; [right; exact Hc'|exact Hn].
  - assert (e' = e) by congruence. subst e'.
    destruct (index_raises _ _ _ Ei) as [He Hn].
    split; [exact He|]. exists c. split; [left; reflexivity|exact Hn].
Qed.

Lemma len_zero (alphabet : str) : (len alphabet =? 0) = true <-> alphabet = [].
Proof.
  unfold len. destruct alphabet; cbn [length]; split; intros H;
    try reflexivity; discriminate H.
Qed.

(** X1: [checksum] returns a value exactly when the alphabet is not empty
    and every symbol of the input belongs to it; the value is an index of
    the alphabet. *)
Theorem checksum_returns_iff (number alphabet : str) :
  ((exists v, checksum number alphabet = Ok v)
   <-> (alphabet <> [] /\ forall c, In c number -> In c alphabet))
  /\ forall v, checksum number alphabet = Ok v -> 0 <= v < len alphabet.
Proof.
  rewrite checksum_weighted. split; [split|].
  - intros [v H].
    destruct (traverse (index alphabet) (rev number)) as [indices|e] eqn:E;
      cbn [rbind] in H; [|discriminate H].
    destruct (len alphabet =? 0) eqn:En; [discriminate H|].
    split.
    + intros ->. discriminate En.
    + intros c Hc. apply (traverse_index_Ok _ _ _ E). apply -> in_rev. exact Hc.
  - intros [Hne Hall].
    destruct (traverse_total (index alphabet) (rev number)) as [indices E].
    { intros c Hc. apply index_total, Hall, in_rev. exact Hc. }
    rewrite E. cbn [rbind].
    destruct (len alphabet =? 0) eqn:En; [apply len_zero in En; congruence|].
    eauto.
  - intros v H.
    destruct (traverse (index alphabet) (rev number)) as [indices|e];
      cbn [rbind] in H; [|discriminate H].
    destruct (len alphabet =? 0) eqn:En; [discriminate H|].
    assert (v = luhn_weighted false (len alphabet) indices mod len alphabet)
      by congruence.
    subst v. apply Z.mod_pos_bound. apply Z.eqb_neq in En. unfold len in *. lia.
Qed.

(** X2: when [checksum] raises, it is ValueError because some symbol of the
    input is not in the alphabet, or ZeroDivisionError because the input and
    the alphabet are both empty. *)
Theorem checksum_raises (number alphabet : str) (e : exn) :
  checksum number alphabet = Raise e ->
  (e = SubstringNotFound /\ exists c, In c number /\ ~ In c alphabet)
  \/ (e = ZeroDivision /\ number = [] /\ alphabet = []).
Proof.
  rewrite checksum_weighted. intros H.
  destruct (traverse (index alphabet) (rev number)) as [indices|e'] eqn:E;
    cbn [rbind] in H.
  - destruct (len alphabet =? 0) eqn:En; [|discriminate H].
    right. apply len_zero in En. subst alphabet.
    split; [congruence|]. split; [|reflexivity].
    destruct number as [|c rest]; [reflexivity|].
    exfalso. apply (traverse_index_Ok _ _ _ E c). apply -> in_rev. left. reflexivity.
  - left. assert (e' = e) by congruence. subst e'.
    destruct (traverse_index_raises _ _ _ E) as (He & c & Hc & Hn).
    split; [exact He|]. exists c. split; [apply in_rev; exact Hc|exact Hn].
Qed.

Lemma checksum_raises_witness :
  checksum (lit "12a4") decimal = Raise SubstringNotFound
  /\ ((SubstringNotFound = SubstringNotFound
       /\ exists c, In c (lit "12a4") /\ ~ In c decimal)
      \/ (SubstringNotFound = ZeroDivision /\ lit "12a4" = [] /\ decimal = [])).
Proof.
  split; [reflexivity|].
  apply (checksum_raises (lit "12a4") decimal SubstringNotFound). reflexivity.
Defined.

(** X3: symbols equal to the first symbol of the alphabet, put in front of
    the input, leave the outcome of [checksum] as it is, value or
    exception. *)
Theorem checksum_ignores_leading_first_symbol
        (a0 : char) (rest number : str) (k : nat) :
  checksum (repeat a0 k ++ number) (a0 :: rest) = checksum number (a0 :: rest).
Proof.
  induction k as [|k IH]; [reflexivity|].
  cbn [repeat app]. rewrite <- IH. generalize (repeat a0 k ++ number) as t. intros t.
  rewrite !checksum_weighted. cbn [rev]. rewrite traverse_app.
  destruct (traverse (index (a0 :: rest)) (rev t)) as [indices|e]; cbn [rbind];
    [|reflexivity].
  cbn [traverse index]. rewrite char_eqb_refl. cbn [rbind].
  destruct (len (a0 :: rest) =? 0); [reflexivity|].
  rewrite luhn_weighted_app. f_equal. f_equal.
  destruct (xorb false (Nat.odd (length indices))); cbn [luhn_weighted];
    rewrite ?Z.mul_0_l, ?Zdiv_0_l, ?Zmod_0_l; lia.
Qed.

(** ** Substituted digits *)

Lemma double_decimal_inj (i j : Z) :
  0 <= i < 10 -> 0 <= j < 10 ->
  (i * 2) / 10 + (i * 2) mod 10 = (j * 2) / 10 + (j * 2) mod 10 -> i = j.
Proof. intros Hi Hj H. Z.div_mod_to_equations. lia. Qed.

Lemma double_decimal_range (i : Z) :
  0 <= i < 10 -> 0 <= (i * 2) / 10 + (i * 2) mod 10 < 10.
Proof. intros Hi. Z.div_mod_to_equations. lia. Qed.

Lemma shifted_mod_inj (p u v : Z) :
  0 <= u < 10 -> 0 <= v < 10 -> (p + u) mod 10 = (p + v) mod 10 -> u = v.
Proof. intros Hu Hv H. Z.div_mod_to_equations. lia. Qed.

Lemma digit_string_traverse (s : str) :
  digit_string s = true -> exists indices, traverse (index decimal) (rev s) = Ok indices.
Proof.
  intros H. apply traverse_total. intros c Hc. apply index_decimal_total.
  apply in_rev in Hc. unfold digit_string in H. rewrite forallb_forall in H.
  apply H. exact Hc.
Qed.

(** The checksum of a decimal string, split at one of its digits. *)
Lemma checksum_decimal_split (a b : str) (x : char) (ia ib : list Z) (ix : Z) :
  traverse (index decimal) (rev a) = Ok ia ->
  traverse (index decimal) (rev b) = Ok ib ->
  index decimal x = Ok ix ->
  checksum (a ++ x :: b) decimal
  = Ok ((luhn_weighted false 10 ib
         + ((if Nat.odd (length ib) then (ix * 2) / 10 + (ix * 2) mod 10 else ix)
            + luhn_weighted (negb (Nat.odd (length ib))) 10 ia)) mod 10).
Proof.
  intros Ha Hb Hx. rewrite checksum_weighted, rev_app_distr. cbn [rev].
  rewrite <- app_assoc, traverse_app, Hb. cbn [rbind app traverse].
  rewrite Hx, Ha. cbn [rbind].
  change (len decimal) with 10. cbn [Z.eqb].
  rewrite luhn_weighted_app. cbn [luhn_weighted xorb]. reflexivity.
Qed.

Lemma index_decimal_inj (x y : char) (i : Z) :
  index decimal x = Ok i -> index decimal y = Ok i -> x = y.
Proof.
  intros Hx Hy. apply index_In in Hx, Hy. congruence.
Qed.

Lemma substituted_digit_changes_checksum (a b : str) (x y : char) :
  digit_string a = true -> digit_string b = true ->
  is_digit x = true -> is_digit y = true -> x <> y ->
  checksum (a ++ x :: b) decimal <> checksum (a ++ y :: b) decimal.
Proof.
  intros Ha Hb Hx Hy Hxy.
  destruct (digit_string_traverse a Ha) as [ia Eia].
  destruct (digit_string_traverse b Hb) as [ib Eib].
  destruct (index_decimal_total x Hx) as [ix Eix].
  destruct (index_decimal_total y Hy) as [iy Eiy].
  rewrite (checksum_decimal_split a b x ia ib ix Eia Eib Eix).
  rewrite (checksum_decimal_split a b y ia ib iy Eia Eib Eiy).
  pose proof (index_bounds _ _ _ Eix) as Bx. pose proof (index_bounds _ _ _ Eiy) as By.
  change (len decimal) with 10 in Bx, By.
  intros H. apply Hxy.
  assert (E : ix = iy); [|subst iy; exact (index_decimal_inj x y ix Eix Eiy)].
  injection H as H.
  set (p := luhn_weighted false 10 ib) in H.
  set (q := luhn_weighted (negb (Nat.odd (length ib))) 10 ia) in H.
  destruct (Nat.odd (length ib)).
  - pose proof (double_decimal_range ix Bx). pose proof (double_decimal_range iy By).
    apply double_decimal_inj; try assumption.
    set (u := ix * 2 / 10 + (ix * 2) mod 10) in *.
    set (v := iy * 2 / 10 + (iy * 2) mod 10) in *.
    apply (shifted_mod_inj (p + q)); try assumption.
    replace (p + q + u) with (p + (u + q)) by lia.
    replace (p + q + v) with (p + (v + q)) by lia. exact H.
  - apply (shifted_mod_inj (p + q)); try assumption.
    replace (p + q + ix) with (p + (ix + q)) by lia.
    replace (p + q + iy) with (p + (iy + q)) by lia. exact H.
Qed.

Lemma digit_string_split (a b : str) (x : char) :
  digit_string (a ++ x :: b) = true ->
  digit_string a = true /\ is_digit x = true /\ digit_string b = true.
Proof.
  rewrite digit_string_app. unfold digit_string at 2. cbn [forallb].
  intros H. apply andb_true_iff in H. destruct H as [Ha H].
  apply andb_true_iff in H. tauto.
Qed.

(** X4: on the decimal alphabet [checksum] tells every single wrong digit:
    two decimal strings that differ in exactly one place have different
    checksums. *)
Theorem checksum_detects_single_digit_error (a b : str) (x y : char) :
  digit_string (a ++ x :: b) = true ->
  is_digit y = true ->
  x <> y ->
  checksum (a ++ x :: b) decimal <> checksum (a ++ y :: b) decimal.
Proof.
  intros H Hy Hxy. apply digit_string_split in H. destruct H as (Ha & Hx & Hb).
  apply substituted_digit_changes_checksum; assumption.
Qed.

Lemma checksum_detects_single_digit_error_witness :
  checksum (lit "7992" ++ "7"%char :: lit "398713") decimal
  <> checksum (lit "7992" ++ "1"%char :: lit "398713") decimal.
Proof.
  apply (checksum_detects_single_digit_error (lit "7992") (lit "398713") "7" "1");
    [reflexivity|reflexivity|discriminate].
Defined.

(** ** The check digit *)

Lemma In_decimal_is_digit (c : char) : In c decimal <-> is_digit c = true.
Proof.
  split.
  - intros H. repeat (destruct H as [<-|H]; [reflexivity|]). destruct H.
  - intros H. destruct (index_decimal_total c H) as [i Hi].
    apply index_In in Hi. apply nth_error_In in Hi. exact Hi.
Qed.

Lemma checksum_Ok_symbols (s alphabet : str) (v : Z) :
  checksum s alphabet = Ok v -> forall c, In c s -> In c alphabet.
Proof.
  rewrite checksum_weighted. intros H c Hc.
  destruct (traverse (index alphabet) (rev s)) as [indices|e] eqn:E;
    cbn [rbind] in H; [|discriminate H].
  apply (traverse_index_Ok _ _ _ E). apply -> in_rev. exact Hc.
Qed.

Lemma checksum_Ok_digits (s : str) (v : Z) :
  checksum s decimal = Ok v -> digit_string s = true.
Proof.
  intros H. unfold digit_string. apply forallb_forall. intros c Hc.
  apply In_decimal_is_digit. exact (checksum_Ok_symbols _ _ _ H c Hc).
Qed.

(** X5: for a string of decimal digits, [calc_check_digit] on the decimal
    alphabet returns one decimal digit; the string with that digit appended
    has checksum 0, and no other appended symbol gives checksum 0. *)
Theorem decimal_check_digit_is_the_only_one (s : str) :
  digit_string s = true ->
  exists d,
    calc_check_digit s decimal = Ok [d]
    /\ is_digit d = true
    /\ checksum (s ++ [d]) decimal = Ok 0
    /\ forall d', checksum (s ++ [d']) decimal = Ok 0 -> d' = d.
Proof.
  intros Hs.
  destruct (calc_check_digit_decimal_total s Hs) as [cd Hcd].
  destruct (calc_check_digit_decimal_valid s cd Hcd) as [Hzero Hlen].
  destruct cd as [|d [|d2 cd]]; try discriminate Hlen.
  assert (Hd : is_digit d = true).
  { apply checksum_Ok_digits in Hzero. rewrite digit_string_app in Hzero.
    apply andb_true_iff in Hzero. destruct Hzero as [_ Hd].
    unfold digit_string in Hd. cbn [forallb] in Hd.
    apply andb_true_iff in Hd. tauto. }
  exists d. repeat split; try assumption.
  intros d' H'.
  destruct (char_dec d' d) as [E|E]; [exact E|exfalso].
  assert (Hd' : is_digit d' = true).
  { apply checksum_Ok_digits in H'. rewrite digit_string_app in H'.
    apply andb_true_iff in H'. destruct H' as [_ Hd'].
    unfold digit_string in Hd'. cbn [forallb] in Hd'.
    apply andb_true_iff in Hd'. tauto. }
  apply (substituted_digit_changes_checksum s [] d' d Hs eq_refl Hd' Hd E).
  rewrite H', Hzero. reflexivity.
Qed.

Lemma decimal_check_digit_is_the_only_one_witness :
  exists d,
    calc_check_digit (lit "7992739871") decimal = Ok [d]
    /\ is_digit d = true
    /\ checksum (lit "7992739871" ++ [d]) decimal = Ok 0
    /\ forall d', checksum (lit "7992739871" ++ [d']) decimal = Ok 0 -> d' = d.
Proof.
  apply (decimal_check_digit_is_the_only_one (lit "7992739871")). reflexivity.
Defined.

(** ** Check symbols on other alphabets *)

Lemma checksum_snoc_weighted (s alphabet : str) (c : char) :
  checksum (s ++ [c]) alphabet
  = rbind (index alphabet c) (fun i =>
    rbind (traverse (index alphabet) (rev s)) (fun rest =>
      if len alphabet =? 0 then Raise ZeroDivision
      else Ok ((i + luhn_weighted true (len alphabet) rest) mod len alphabet))).
Proof.
  rewrite checksum_weighted, rev_app_distr. cbn [rev app traverse].
  destruct (index alphabet c) as [i|e]; cbn [rbind]; [|reflexivity].
  destruct (traverse (index alphabet) (rev s)) as [rest|e]; reflexivity.
Qed.

Lemma subscript_first {A} (a0 : A) (rest : list A) : subscript (a0 :: rest) 0 = Ok a0.
Proof.
  unfold subscript. cbn [Z.ltb Z.compare length orb].
  destruct (Z.of_nat (S (length rest)) <=? 0) eqn:E; [apply Z.leb_le in E; lia|].
  reflexivity.
Qed.

Lemma subscript_from_end {A} (s : list A) (c : Z) :
  0 < c <= Z.of_nat (length s) ->
  exists x, subscript s (- c) = Ok x
            /\ nth_error s (length s - Z.to_nat c) = Some x.
Proof.
  intros Hc. unfold subscript.
  destruct (- c <? 0) eqn:E; [|apply Z.ltb_ge in E; lia].
  destruct ((Z.of_nat (length s) + - c <? 0)
            || (Z.of_nat (length s) <=? Z.of_nat (length s) + - c)) eqn:E2.
  { apply orb_true_iff in E2. destruct E2 as [E2|E2];
      [apply Z.ltb_lt in E2|apply Z.leb_le in E2]; lia. }
  replace (Z.to_nat (Z.of_nat (length s) + - c)) with (length s - Z.to_nat c)%nat by lia.
  destruct (nth_error s (length s - Z.to_nat c)) as [x|] eqn:En; [eauto|].
  apply nth_error_None in En. lia.
Qed.

Lemma complement_cancels (n t c : Z) :
  0 < n -> c = t mod n -> 0 < c -> (n - c + t) mod n = 0.
Proof.
  intros Hn -> _.
  replace (n - t mod n + t) with (t - t mod n + 1 * n) by lia.
  rewrite Z_mod_plus_full, Zminus_mod_idemp_r, Z.sub_diag. reflexivity.
Qed.

(** X6: over any alphabet without repeated symbols, [checksum] yields its
    own check symbol: when [checksum] of the input followed by the first
    symbol of the alphabet is [c], the symbol [alphabet[-c]] exists, and the
    input followed by it has checksum 0 over that alphabet. *)
Theorem checksum_gives_check_symbol (s rest : str) (a0 : char) (c : Z) :
  NoDup (a0 :: rest) ->
  checksum (s ++ [a0]) (a0 :: rest) = Ok c ->
  exists ch,
    subscript (a0 :: rest) (- c) = Ok ch
    /\ checksum (s ++ [ch]) (a0 :: rest) = Ok 0.
Proof.
  intros Hnd H. set (alphabet := a0 :: rest) in *.
  assert (Hn : 0 < len alphabet) by (unfold len, alphabet; cbn [length]; lia).
  rewrite checksum_snoc_weighted in H.
  assert (Hi0 : index alphabet a0 = Ok 0)
    by (unfold alphabet; cbn [index]; rewrite char_eqb_refl; reflexivity).
  rewrite Hi0 in H. cbn [rbind] in H.
  destruct (traverse (index alphabet) (rev s)) as [indices|e] eqn:E;
    cbn [rbind] in H; [|discriminate H].
  destruct (len alphabet =? 0) eqn:En; [discriminate H|].
  set (t := luhn_weighted true (len alphabet) indices) in *.
  assert (Hc : c = t mod len alphabet) by (rewrite <- (Z.add_0_l t); congruence).
  assert (Hr : 0 <= c < len alphabet) by (subst c; apply Z.mod_pos_bound; lia).
  destruct (Z.eq_dec c 0) as [Hz|Hz].
  - exists a0. subst c. rewrite Hz. split; [apply subscript_first|].
    rewrite checksum_snoc_weighted, Hi0. cbn [rbind]. rewrite E. cbn [rbind].
    rewrite En, Z.add_0_l. fold t. rewrite Hz. reflexivity.
  - destruct (subscript_from_end alphabet c) as (ch & Hsub & Hnth);
      [unfold len in Hr; lia|].
    exists ch. split; [exact Hsub|].
    rewrite checksum_snoc_weighted, (index_nth_NoDup alphabet _ ch Hnd Hnth).
    cbn [rbind]. rewrite E. cbn [rbind]. rewrite En. f_equal.
    replace (Z.of_nat (length alphabet - Z.to_nat c)) with (len alphabet - c)
      by (unfold len in *; lia).
    apply complement_cancels; [exact Hn|exact Hc|lia].
Qed.

Lemma checksum_gives_check_symbol_witness :
  checksum (lit "5" ++ ["0"%char]) hexadecimal = Ok 10
  /\ exists ch,
       subscript hexadecimal (- 10) = Ok ch
       /\ checksum (lit "5" ++ [ch]) hexadecimal = Ok 0.
Proof.
  split; [reflexivity|].
  apply (checksum_gives_check_symbol (lit "5") (lit "123456789abcdef") "0" 10).
  - repeat constructor; cbn [In]; intros H;
      repeat (destruct H as [H|H]; [discriminate H|]); exact H.
  - reflexivity.
Defined.

(** ** Where [calc_check_digit] raises *)

Lemma checksum_Ok_range (s alphabet : str) (v : Z) :
  checksum s alphabet = Ok v -> 0 <= v < len alphabet.
Proof.
  rewrite checksum_weighted. intros H.
  destruct (traverse (index alphabet) (rev s)) as [indices|e];
    cbn [rbind] in H; [|discriminate H].
  destruct (len alphabet =? 0) eqn:En; [discriminate H|].
  assert (v = luhn_weighted false (len alphabet) indices mod len alphabet)
    by congruence.
  subst v. apply Z.mod_pos_bound. apply Z.eqb_neq in En. unfold len in *. lia.
Qed.

Lemma checksum_Raise_symbol (s alphabet : str) (e : exn) :
  alphabet <> [] ->
  checksum s alphabet = Raise e ->
  e = SubstringNotFound /\ exists c, In c s /\ ~ In c alphabet.
Proof.
  rewrite checksum_weighted. intros Hne H.
  destruct (traverse (index alphabet) (rev s)) as [indices|e'] eqn:E;
    cbn [rbind] in H.
  - destruct (len alphabet =? 0) eqn:En; [|discriminate H].
    apply len_zero in En. congruence.
  - assert (e' = e) by congruence. subst e'.
    destruct (traverse_index_raises _ _ _ E) as (He & c & Hc & Hn).
    split; [exact He|]. exists c. split; [apply in_rev; exact Hc|exact Hn].
Qed.

Lemma subscript_Raise {A} (s : list A) (i : Z) (e : exn) :
  subscript s i = Raise e -> e = IndexOutOfRange.
Proof.
  unfold subscript. intros H.
  destruct ((_ <? 0) || (_ <=? _)); [congruence|].
  destruct (nth_error s _); [discriminate H|congruence].
Qed.

(** X7: [calc_check_digit] raises IndexError on an empty alphabet;
    TypeError when the alphabet is not empty and the input is an integer,
    which cannot be added to the first symbol of the alphabet; ValueError
    when the input is a string and it, or the first symbol of the alphabet,
    holds a character that is not one of the digits 0 to 9, whatever the
    alphabet; and IndexError when the input is a string and the decimal
    checksum computed for it is larger than the alphabet is long. It raises
    in no other case. *)
Theorem calc_check_digit_raises (number : number) (alphabet : str) (e : exn) :
  calc_check_digit number alphabet = Raise e ->
  (e = IndexOutOfRange /\ alphabet = [])
  \/ (e = UnsupportedOperand /\ alphabet <> [] /\ exists n, number = Int n)
  \/ (e = SubstringNotFound
      /\ exists s a0 c,
           number = Str s
           /\ hd_error alphabet = Some a0
           /\ In c (s ++ [a0]) /\ is_digit c = false)
  \/ (e = IndexOutOfRange
      /\ exists s a0 c,
           number = Str s
           /\ hd_error alphabet = Some a0
           /\ checksum (s ++ [a0]) decimal = Ok c
           /\ len alphabet < c).
Proof.
  unfold calc_check_digit. destruct alphabet as [|a0 rest].
  - intros H. left. split; [|reflexivity].
    change (subscript (@nil char) 0) with (@Raise char IndexOutOfRange) in H.
    cbn [rbind] in H. congruence.
  - rewrite subscript_first. cbn [rbind].
    destruct number as [n|s]; cbn [plus_str rbind].
    { intros H. right. left. split; [congruence|].
      split; [discriminate|]. exists n. reflexivity. }
    destruct (checksum (s ++ [a0]) decimal) as [c|e'] eqn:Ec; cbn [rbind].
    + destruct (subscript (a0 :: rest) (- c)) as [ch|e'] eqn:Es; cbn [rbind];
        intros H; [discriminate H|].
      assert (e' = e) by congruence. subst e'.
      right. right. right. split; [exact (subscript_Raise _ _ _ Es)|].
      exists s, a0, c. split; [reflexivity|]. split; [reflexivity|].
      split; [exact Ec|].
      pose proof (checksum_Ok_range _ _ _ Ec) as Hr.
      destruct (Z.eq_dec c 0) as [Hz|Hz].
      * subst c. cbn [Z.opp] in Es. rewrite subscript_first in Es. discriminate Es.
      * destruct (Z_lt_le_dec (len (a0 :: rest)) c) as [Hlt|Hle]; [exact Hlt|].
        destruct (subscript_from_end (a0 :: rest) c) as (x & Hx & _);
          [unfold len in Hle; lia|].
        rewrite Hx in Es. discriminate Es.
    + intros H. assert (e' = e) by congruence. subst e'.
      right. right. left.
      assert (Hne : decimal <> []) by (vm_compute; discriminate).
      destruct (checksum_Raise_symbol _ _ _ Hne Ec) as (He & c & Hc & Hn).
      split; [exact He|]. exists s, a0, c. split; [reflexivity|].
      split; [reflexivity|]. split; [exact Hc|].
      destruct (is_digit c) eqn:Ed; [|reflexivity].
      exfalso. apply Hn. apply In_decimal_is_digit. exact Ed.
Qed.

Lemma calc_check_digit_raises_witness :
  calc_check_digit (Int 79927398713) decimal = Raise UnsupportedOperand
  /\ ((UnsupportedOperand = IndexOutOfRange /\ decimal = [])
      \/ (UnsupportedOperand = UnsupportedOperand /\ decimal <> []
          /\ exists n, Int 79927398713 = Int n)
      \/ (UnsupportedOperand = SubstringNotFound
          /\ exists s a0 c,
               Int 79927398713 = Str s
               /\ hd_error decimal = Some a0
               /\ In c (s ++ [a0]) /\ is_digit c = false)
      \/ (UnsupportedOperand = IndexOutOfRange
          /\ exists s a0 c,
               Int 79927398713 = Str s
               /\ hd_error decimal = Some a0
               /\ checksum (s ++ [a0]) decimal = Ok c
               /\ len decimal < c)).
Proof.
  split; [reflexivity|].
  apply (calc_check_digit_raises (Int 79927398713) decimal UnsupportedOperand).
  reflexivity.
Defined.

(** ** Construction and the phone format *)

Lemma insert_by_len_In (x z : str) (xs : list str) :
  In z (insert_by_len x xs) <-> z = x \/ In z xs.
Proof.
  induction xs as [|y rest IH]; cbn [insert_by_len].
  - cbn [In]. intuition congruence.
  - destruct (length x <? length y)%nat; cbn [In]; [intuition congruence|].
    rewrite IH. intuition congruence.
Qed.

Lemma insert_by_len_sorted (x : str) (xs : list str) :
  sorted_len xs -> sorted_len (insert_by_len x xs).
Proof.
  induction xs as [|y rest IH]; cbn [insert_by_len sorted_len].
  - intros _. split; [constructor|exact I].
  - intros [Hy Hrest]. destruct (length x <? length y)%nat eqn:E.
    + apply Nat.ltb_lt in E. cbn [sorted_len]. split; [|split; assumption].
      constructor; [lia|]. rewrite Forall_forall in *. intros z Hz.
      specialize (Hy z Hz). lia.
    + apply Nat.ltb_ge in E. cbn [sorted_len]. split; [|apply IH; exact Hrest].
      rewrite Forall_forall in *. intros z Hz. apply insert_by_len_In in Hz.
      destruct Hz as [->|Hz]; [exact E|apply Hy; exact Hz].
Qed.

Lemma sorted_by_len_spec (xs : list str) :
  sorted_len (sorted_by_len xs)
  /\ forall z, In z (sorted_by_len xs) <-> In z xs.
Proof.
  unfold sorted_by_len.
  assert (H : forall acc,
             sorted_len acc ->
             sorted_len (fold_left (fun acc x => insert_by_len x acc) xs acc)
             /\ forall z, In z (fold_left (fun acc x => insert_by_len x acc) xs acc)
                          <-> In z xs \/ In z acc).
  { induction xs as [|x rest IH]; intros acc Hacc; cbn [fold_left].
    - split; [exact Hacc|]. intros z. cbn [In]. tauto.
    - destruct (IH (insert_by_len x acc) (insert_by_len_sorted x acc Hacc))
        as [Hs Hin].
      split; [exact Hs|]. intros z. rewrite Hin, insert_by_len_In. cbn [In].
      intuition congruence. }
  destruct (H [] I) as [Hs Hin]. split; [exact Hs|].
  intros z. rewrite Hin. cbn [In]. tauto.
Qed.

Lemma sorted_len_last (xs : list str) (x : str) :
  sorted_len (xs ++ [x]) -> forall z, In z (xs ++ [x]) -> (length z <= length x)%nat.
Proof.
  induction xs as [|y rest IH]; cbn [app sorted_len].
  - intros _ z [<-|[]]. lia.
  - intros [Hy Hrest] z [<-|Hz].
    + rewrite Forall_forall in Hy. apply Hy. apply in_or_app. right. left. reflexivity.
    + apply IH; assumption.
Qed.

Lemma In_le_longest (chunk : list str) (z : str) :
  In z chunk -> (length z <= longest chunk)%nat.
Proof.
  intros Hz. unfold longest.
  assert (H : Forall (fun k => (k <= list_max (map (@length char) chunk))%nat)
                     (map (@length char) chunk))
    by (apply list_max_le; lia).
  rewrite Forall_forall in H. apply H. apply in_map. exact Hz.
Qed.

(** The last string of the sorted chunk has the length of the longest. *)
Lemma subscript_sorted_last (chunk : list str) :
  chunk <> [] ->
  exists z, subscript (sorted_by_len chunk) (-1) = Ok z
            /\ In z chunk /\ length z = longest chunk.
Proof.
  intros Hne. destruct (sorted_by_len_spec chunk) as [Hs Hin].
  destruct (sorted_by_len chunk) as [|y ys] eqn:E.
  { destruct chunk as [|c cs]; [congruence|].
    exfalso. apply (Hin c). left. reflexivity. }
  rewrite <- E in *.
  destruct (subscript_from_end (sorted_by_len chunk) 1) as (z & Hz & Hnth).
  { rewrite E. cbn [length]. lia. }
  exists z. split; [exact Hz|].
  assert (Hz_in : In z chunk) by (apply Hin; eapply nth_error_In; exact Hnth).
  split; [exact Hz_in|].
  apply Nat.le_antisymm; [apply In_le_longest; exact Hz_in|].
  destruct (exists_last (l := sorted_by_len chunk)) as (front & w & Ew);
    [rewrite E; discriminate|].
  rewrite Ew in Hnth, Hs.
  rewrite length_app in Hnth. cbn [length] in Hnth.
  replace (length front + 1 - Z.to_nat 1)%nat with (length front) in Hnth by lia.
  rewrite nth_error_app2, Nat.sub_diag in Hnth by lia. cbn [nth_error] in Hnth.
  assert (w = z) by congruence. subst w.
  unfold longest. apply list_max_le. apply Forall_forall. intros k Hk.
  apply in_map_iff in Hk. destruct Hk as (u & <- & Hu).
  apply (sorted_len_last front z Hs). rewrite <- Ew. apply Hin. exact Hu.
Qed.

Lemma traverse_Forall2 {A B} (f : A -> result B) (xs : list A) (ys : list B) :
  traverse f xs = Ok ys -> Forall2 (fun x y => f x = Ok y) xs ys.
Proof.
  revert ys. induction xs as [|x rest IH]; intros ys H; cbn [traverse] in H.
  - assert (ys = []) by congruence. subst. constructor.
  - destruct (f x) as [y|e] eqn:Ey; cbn [rbind] in H; [|discriminate H].
    destruct (traverse f rest) as [ys'|e] eqn:Er; cbn [rbind] in H; [|discriminate H].
    assert (ys = y :: ys') by congruence. subst. constructor; [exact Ey|].
    apply IH. reflexivity.
Qed.

Lemma traverse_Raise_some {A B} (f : A -> result B) (xs : list A) (e : exn) :
  traverse f xs = Raise e -> exists x, In x xs /\ f x = Raise e.
Proof.
  induction xs as [|x rest IH]; cbn [traverse]; intros H; [discriminate H|].
  destruct (f x) as [y|e'] eqn:Ey; cbn [rbind] in H.
  - destruct (traverse f rest) as [ys|e'] eqn:Er; cbn [rbind] in H; [discriminate H|].
    assert (e' = e) by congruence. subst e'.
    destruct (IH eq_refl) as (z & Hz & Hf). exists z. split; [right; exact Hz|exact Hf].
  - exists x. split; [left; reflexivity|congruence].
Qed.

Lemma zfill_length_exact (w : nat) (s : str) :
  (length s <= w)%nat -> length (zfill w s) = w.
Proof.
  intros H. unfold zfill. destruct s as [|c rest].
  - rewrite repeat_length. cbn [length]. lia.
  - destruct (char_eqb c "+" || char_eqb c "-"); cbn [length] in *;
      rewrite length_app, repeat_length; cbn [length]; lia.
Qed.

Section ConstructedFormat.

Variable phoneswithtac : list DeviceRow.
Variable phonecodescountry : list OperatorRow.
Variable re_valid : str -> bool.
Variable re_search : str -> str -> bool.

Lemma __init___format (country : str) (fmt : list (list str)) (self : RandomPhone.t) :
  __init__ phoneswithtac phonecodescountry re_valid re_search country fmt = Ok self ->
  phone_format_without_country self
  = map (fun chunk => map (zfill (longest chunk)) chunk) fmt.
Proof.
  unfold __init__. intros H.
  destruct (traverse _ fmt) as [tmp|e] eqn:E; [|discriminate H].
  cbn [rbind] in H. destruct (re_valid country); [|discriminate H].
  injection H as <-. cbn [phone_format_without_country].
  apply traverse_Forall2 in E.
  induction E as [|chunk w fmt' tmp' Hw _ IH]; [reflexivity|].
  cbn [combine map fst snd]. rewrite IH. f_equal.
  destruct chunk as [|c cs]; [reflexivity|].
  destruct (subscript_sorted_last (c :: cs)) as (z & Hz & _ & Hlen); [discriminate|].
  rewrite Hz in Hw. cbn [rbind] in Hw. congruence.
Qed.

(** X8: for a format given as a sequence of chunks, each a sequence of
    fragments, construction raises IndexError when a chunk is empty, whatever
    the country; with no empty chunk it raises [re.error] when the country
    does not compile as a regular expression; and otherwise it succeeds,
    keeps the country and the device table, and has as many chunks as the
    format, each with as many fragments. *)
Theorem __init___outcome (country : str) (fmt : list (list str)) :
  (In [] fmt ->
   __init__ phoneswithtac phonecodescountry re_valid re_search country fmt
   = Raise IndexOutOfRange)
  /\ (~ In [] fmt -> re_valid country = false ->
      __init__ phoneswithtac phonecodescountry re_valid re_search country fmt
      = Raise BadPattern)
  /\ (~ In [] fmt -> re_valid country = true ->
      exists self,
        __init__ phoneswithtac phonecodescountry re_valid re_search country fmt = Ok self
        /\ RandomPhone.country self = country
        /\ df self = phoneswithtac
        /\ map (@length str) (phone_format_without_country self)
           = map (@length str) fmt).
Proof.
  assert (Hlens : forall tmp,
            traverse
              (fun x => rbind (subscript (sorted_by_len x) (-1))
                              (fun longest => Ok (length longest))) fmt = Ok tmp ->
            ~ In [] fmt).
  { intros tmp Et Hin. destruct (traverse_Ok_each _ _ _ Et [] Hin) as [y Hy].
    discriminate Hy. }
  assert (Hraise : forall e,
            traverse
              (fun x => rbind (subscript (sorted_by_len x) (-1))
                              (fun longest => Ok (length longest))) fmt = Raise e ->
            e = IndexOutOfRange /\ In [] fmt).
  { intros e Et. apply traverse_Raise_some in Et. destruct Et as (x & Hx_in & Hx).
    destruct x as [|c cs].
    - split; [|exact Hx_in].
      change (sorted_by_len (@nil str)) with (@nil str) in Hx.
      change (subscript (@nil str) (-1)) with (@Raise str IndexOutOfRange) in Hx.
      cbn [rbind] in Hx. congruence.
    - destruct (subscript_sorted_last (c :: cs)) as (z & Hz & _); [discriminate|].
      rewrite Hz in Hx. discriminate Hx. }
  unfold __init__.
  destruct (traverse _ fmt) as [tmp|e] eqn:Et; cbn [rbind].
  - specialize (Hlens tmp eq_refl). split; [intros Hin; contradiction|].
    split; intros _ Hv; rewrite Hv; [reflexivity|].
    eexists. split; [reflexivity|]. cbn [RandomPhone.country df phone_format_without_country].
    split; [reflexivity|]. split; [reflexivity|].
    apply traverse_Forall2 in Et. clear Hlens Hraise.
    induction Et as [|chunk w fmt' tmp' _ _ IH]; [reflexivity|].
    cbn [combine map fst snd]. rewrite IH. f_equal. apply length_map.
  - destruct (Hraise e eq_refl) as [-> Hin].
    split; [reflexivity|]. split; intros Hn; contradiction.
Qed.

(** X9: after construction every chunk holds its fragments in their order,
    each filled with zeros to the length of the longest fragment of the
    chunk; so all fragments of a chunk have that same length. *)
Theorem __init___pads_to_longest
        (country : str) (fmt : list (list str)) (self : RandomPhone.t) :
  __init__ phoneswithtac phonecodescountry re_valid re_search country fmt = Ok self ->
  Forall2 (fun chunk padded =>
             padded = map (zfill (longest chunk)) chunk
             /\ forall fragment, In fragment padded -> length fragment = longest chunk)
          fmt (phone_format_without_country self).
Proof.
  intros H. rewrite (__init___format _ _ _ H). clear H.
  induction fmt as [|chunk rest IH]; cbn [map]; constructor; [|exact IH].
  split; [reflexivity|]. intros fragment Hf.
  apply in_map_iff in Hf. destruct Hf as (orig & <- & Ho).
  apply zfill_length_exact, In_le_longest. exact Ho.
Qed.

End ConstructedFormat.

Lemma __init___pads_to_longest_witness :
  __init__ [ex_device] [ex_operator] ex_valid ex_search (lit "Brazil")
           [[lit "1"; lit "12"]; [lit "0"; lit "9998"]]
  = Ok (RandomPhone.mk (lit "Brazil")
                       [[lit "01"; lit "12"]; [lit "0000"; lit "9998"]]
                       [ex_device] [ex_operator])
  /\ Forall2 (fun chunk padded =>
                padded = map (zfill (longest chunk)) chunk
                /\ forall fragment, In fragment padded -> length fragment = longest chunk)
             [[lit "1"; lit "12"]; [lit "0"; lit "9998"]]
             [[lit "01"; lit "12"]; [lit "0000"; lit "9998"]].
Proof.
  split; [reflexivity|].
  apply (__init___pads_to_longest [ex_device] [ex_operator] ex_valid ex_search (lit "Brazil")
           [[lit "1"; lit "12"]; [lit "0"; lit "9998"]]
           (RandomPhone.mk (lit "Brazil")
                           [[lit "01"; lit "12"]; [lit "0000"; lit "9998"]]
                           [ex_device] [ex_operator])).
  reflexivity.
Defined.

(** ** The phone number *)

(** X10: a phone number that [_get_phone_number] returns holds only
    characters that the class [\d] matches: the digits 0 to 9 and the decimal
    digits of other scripts, which are kept. When a non-empty number is
    given, it is that number with the characters outside that class removed,
    whatever the format, and the generator is left as it was; otherwise it
    is what is left in the same way of one fragment per chunk, joined in the
    order of the chunks. *)
Theorem _get_phone_number_outcome (self : RandomPhone.t) (phonenumber : option str)
        (g g' : Random) (p : str) :
  _get_phone_number self phonenumber g = (Ok p, g') ->
  decimal_string p = true
  /\ ((exists raw,
          phonenumber = Some raw /\ raw <> []
          /\ p = strip_non_digits raw /\ g' = g)
      \/ (truthy phonenumber = false
          /\ exists picked,
               Forall2 (@In str) picked (phone_format_without_country self)
               /\ p = strip_non_digits (concat picked))).
Proof.
  intros H. split; [exact (_get_phone_number_decimal _ _ _ _ _ H)|].
  unfold _get_phone_number in H.
  apply bind_Ok in H. destruct H as (raw & g1 & Hraw & H).
  apply ret_Ok in H. destruct H as [-> ->].
  destruct (truthy phonenumber) eqn:Ht.
  - left. destruct phonenumber as [[|c rest]|]; try discriminate Ht.
    apply ret_Ok in Hraw. destruct Hraw as [-> ->].
    exists (c :: rest). repeat split. discriminate.
  - right. split; [reflexivity|].
    destruct (phone_format_without_country self) as [|chunk rest]; [discriminate Hraw|].
    apply bind_Ok in Hraw. destruct Hraw as (picked & g2 & Hp & Hraw).
    apply ret_Ok in Hraw. destruct Hraw as [-> _].
    exists picked. split; [exact (for_each_choice_Ok _ _ _ _ Hp)|reflexivity].
Qed.

Lemma _get_phone_number_outcome_witness :
  _get_phone_number ex_self ex_phone_arabic_indic ex_random
  = (Ok (lit "2497" ++ [Nd 1635] ++ lit "368714"), ex_random)
  /\ decimal_string (lit "2497" ++ [Nd 1635] ++ lit "368714") = true
  /\ ((exists raw,
          ex_phone_arabic_indic = Some raw /\ raw <> []
          /\ lit "2497" ++ [Nd 1635] ++ lit "368714" = strip_non_digits raw
          /\ ex_random = ex_random)
      \/ (truthy ex_phone_arabic_indic = false
          /\ exists picked,
               Forall2 (@In str) picked (phone_format_without_country ex_self)
               /\ lit "2497" ++ [Nd 1635] ++ lit "368714"
                  = strip_non_digits (concat picked))).
Proof.
  split; [reflexivity|].
  apply (_get_phone_number_outcome ex_self ex_phone_arabic_indic ex_random ex_random
                                   (lit "2497" ++ [Nd 1635] ++ lit "368714")).
  reflexivity.
Defined.

(** A tape that holds the given draws, read from its start. *)
Lemma for_each_choice_reaches {A} (chunks : list (list A)) (picked : list A) :
  Forall2 (@In A) picked chunks ->
  exists draws,
    forall g,
      (forall i, (i < length draws)%nat ->
                 py_tape g (py_cursor g + i) = nth i draws 0) ->
      exists g', for_each choice chunks g = (Ok picked, g').
Proof.
  induction 1 as [|x chunk picked chunks Hx _ [draws IH]].
  - exists []. intros g _. exists g. reflexivity.
  - destruct (In_nth chunk x x Hx) as (k & Hk & Hnth).
    exists (Z.of_nat k :: draws). intros g Hg.
    destruct chunk as [|y ys]; [destruct Hx|].
    set (g1 := mkRandom (py_tape g) (S (py_cursor g)) (np_tape g) (np_cursor g)).
    assert (Hc : choice (y :: ys) g = (Ok x, g1)).
    { unfold choice, bind, py_draw, ret. fold g1. f_equal. f_equal.
      specialize (Hg 0%nat ltac:(cbn [length]; lia)).
      rewrite Nat.add_0_r in Hg. rewrite Hg.
      change (nth 0 (Z.of_nat k :: draws) 0) with (Z.of_nat k).
      rewrite Z.mod_small by lia. rewrite Nat2Z.id.
      rewrite (nth_indep (y :: ys) y x Hk). exact Hnth. }
    destruct (IH g1) as [g' Hrest].
    { intros i Hi. specialize (Hg (S i) ltac:(cbn [length]; lia)).
      cbn [nth] in Hg. unfold g1. cbn [py_tape py_cursor].
      rewrite <- Hg. f_equal. lia. }
    exists g'. cbn [for_each].
    rewrite (bind_run _ _ _ _ _ Hc), (bind_run _ _ _ _ _ Hrest). reflexivity.
Qed.

(** X11: with no phone number given and a format of at least one chunk,
    every pick of one fragment per chunk is reached: some state of the
    generator makes [_get_phone_number] return the digits of those
    fragments joined. *)
Theorem _get_phone_number_reaches_every_pick
        (self : RandomPhone.t) (picked : list str) :
  phone_format_without_country self <> [] ->
  Forall2 (@In str) picked (phone_format_without_country self) ->
  exists g g',
    _get_phone_number self None g = (Ok (strip_non_digits (concat picked)), g').
Proof.
  intros Hne Hall.
  destruct (for_each_choice_reaches _ _ Hall) as [draws Hd].
  set (g := mkRandom (fun n => nth n draws 0) 0 (fun _ => 0) 0).
  destruct (Hd g) as [g' Hrun]; [intros i _; reflexivity|].
  exists g, g'. unfold _get_phone_number. cbn [truthy].
  destruct (phone_format_without_country self) as [|chunk rest]; [congruence|].
  unfold bind at 1. unfold bind at 1. rewrite Hrun. reflexivity.
Qed.

Lemma _get_phone_number_reaches_every_pick_witness :
  exists g g',
    _get_phone_number
      (RandomPhone.mk (lit "Brazil") [[lit "11"; lit "12"]; [lit "9"]; [lit "0001"]]
                      [ex_device] [ex_operator])
      None g
    = (Ok (strip_non_digits (concat [lit "12"; lit "9"; lit "0001"])), g').
Proof.
  apply (_get_phone_number_reaches_every_pick
           (RandomPhone.mk (lit "Brazil")
                           [[lit "11"; lit "12"]; [lit "9"]; [lit "0001"]]
                           [ex_device] [ex_operator])
           [lit "12"; lit "9"; lit "0001"]).
  - discriminate.
  - constructor; [right; left; reflexivity|].
    constructor; [left; reflexivity|].
    constructor; [left; reflexivity|]. constructor.
Defined.

Section FormatWidth.

Variable phoneswithtac : list DeviceRow.
Variable phonecodescountry : list OperatorRow.
Variable re_valid : str -> bool.
Variable re_search : str -> str -> bool.

(** X12: when every fragment of the format is a string of decimal digits,
    all phone numbers built from the constructed format have the same
    length: the sum, over the chunks, of the length of the longest
    fragment. *)
Theorem phone_numbers_have_the_format_width
        (country : str) (fmt : list (list str)) (self : RandomPhone.t)
        (g g' : Random) (p : str) :
  __init__ phoneswithtac phonecodescountry re_valid re_search country fmt = Ok self ->
  Forall (Forall (fun fragment => digit_string fragment = true)) fmt ->
  _get_phone_number self None g = (Ok p, g') ->
  length p = list_sum (map longest fmt).
Proof.
  intros Hinit Hdigits Hrun.
  pose proof (__init___format _ _ _ _ _ _ _ Hinit) as Hf.
  unfold _get_phone_number in Hrun.
  apply bind_Ok in Hrun. destruct Hrun as (raw & g1 & Hraw & Hrun).
  apply ret_Ok in Hrun. destruct Hrun as [-> _]. cbn [truthy] in Hraw.
  destruct (phone_format_without_country self) as [|chunk0 rest0] eqn:Ef;
    [discriminate Hraw|].
  apply bind_Ok in Hraw. destruct Hraw as (picked & g2 & Hp & Hraw).
  apply ret_Ok in Hraw. destruct Hraw as [-> _].
  apply for_each_choice_Ok in Hp. rewrite Hf in Hp. clear Hf Ef Hinit.
  assert (H : digit_string (concat picked) = true
              /\ length (concat picked) = list_sum (map longest fmt)).
  { revert picked Hp. induction Hdigits as [|chunk rest Hchunk _ IH];
      intros picked Hp; inversion Hp as [|x c xs cs Hx Hxs]; subst.
    - split; reflexivity.
    - destruct (IH xs Hxs) as [IHd IHl].
      apply in_map_iff in Hx. destruct Hx as (orig & <- & Ho).
      rewrite Forall_forall in Hchunk.
      cbn [concat map list_sum]. rewrite digit_string_app, length_app, IHl, IHd.
      rewrite digit_string_zfill by (apply Hchunk; exact Ho).
      rewrite zfill_length_exact by (apply In_le_longest; exact Ho).
      split; reflexivity. }
  destruct H as [Hd Hl]. rewrite strip_non_digits_digit_string; assumption.
Qed.

End FormatWidth.

Lemma phone_numbers_have_the_format_width_witness :
  exists p g',
    _get_phone_number
      (RandomPhone.mk (lit "Brazil") [[lit "01"; lit "12"]; [lit "0000"; lit "9998"]]
                      [ex_device] [ex_operator])
      None ex_random = (Ok p, g')
    /\ length p = list_sum (map longest [[lit "1"; lit "12"]; [lit "0"; lit "9998"]]).
Proof.
  eexists. eexists. split; [vm_compute; reflexivity|].
  eapply (phone_numbers_have_the_format_width
            [ex_device] [ex_operator] ex_valid ex_search (lit "Brazil")
            [[lit "1"; lit "12"]; [lit "0"; lit "9998"]]
            (RandomPhone.mk (lit "Brazil")
                            [[lit "01"; lit "12"]; [lit "0000"; lit "9998"]]
                            [ex_device] [ex_operator])
            ex_random).
  - reflexivity.
  - repeat constructor.
  - vm_compute. reflexivity.
Defined.

(** ** The rows that are handed over *)

Lemma get_phone_data_row_generated (self : RandomPhone.t) (phonenumber : option str)
      (qty : Z) (fuel : nat) (g g' : Random) (frame : Frame) (row : IdentityRow) :
  1 <= qty ->
  get_phone_data fuel self phonenumber qty g = (Some (Ok frame), g') ->
  In row frame ->
  exists f g0 g1, _get_phone_data self phonenumber g0 = (Ok f, g1) /\ In row f.
Proof.
  intros Hqty H Hrow.
  destruct (get_phone_data_sound _ _ _ _ _ _ _ Hqty H)
    as (frames & Hall & _ & _ & E & _).
  injection E as ->. apply in_concat in Hrow. destruct Hrow as (f & Hf & Hrow).
  rewrite Forall_forall in Hall. destruct (Hall f Hf) as (g0 & g1 & Hrun).
  exists f, g0, g1. split; assumption.
Qed.

Lemma calc_check_digit_decimal_digits (s cd : str) :
  calc_check_digit s decimal = Ok cd -> digit_string (s ++ cd) = true.
Proof.
  intros H. destruct (calc_check_digit_decimal_valid s cd H) as [Hz _].
  exact (checksum_Ok_digits _ _ Hz).
Qed.

(** X13: every record that [get_phone_data] hands over for a given,
    non-empty phone number carries that number, with its non-digits
    removed, behind the line code of its operator row, and its IMSI is the
    first 15 characters of mcc, mnc and that number. *)
Theorem get_phone_data_keeps_the_given_number
        (self : RandomPhone.t) (raw : str) (qty : Z) (fuel : nat) (g g' : Random)
        (frame : Frame) (row : IdentityRow) :
  1 <= qty ->
  raw <> [] ->
  get_phone_data fuel self (Some raw) qty g = (Some (Ok frame), g') ->
  In row frame ->
  cc_phone_number (assigned row)
  = aa_line (operator row) ++ strip_non_digits raw
  /\ cc_imsi (assigned row)
     = slice_to 15 (aa_mcc (operator row) ++ aa_mnc (operator row)
                    ++ strip_non_digits raw).
Proof.
  intros Hqty Hraw H Hrow.
  destruct (get_phone_data_row_generated _ _ _ _ _ _ _ _ Hqty H Hrow)
    as (f & g0 & g1 & Hrun & Hf).
  apply _get_phone_data_inv in Hrun.
  destruct Hrun as (p & d & o & prefix & r & a & b & c & cd1 & cd2 & g2 & Hrun).
  destruct Hrun as (Hp & _ & _ & _ & _ & _ & _ & _ & _ & _ & ->).
  destruct Hf as [<-|[]].
  cbn [identity_row assigned operator cc_phone_number cc_imsi].
  assert (E : p = strip_non_digits raw).
  { unfold _get_phone_number in Hp.
    destruct raw as [|ch rest]; [congruence|]. cbn [truthy] in Hp.
    unfold bind, ret in Hp. congruence. }
  rewrite E. split; reflexivity.
Qed.

Lemma get_phone_data_keeps_the_given_number_witness :
  exists row1 row2 g',
    get_phone_data 2 ex_self (Some (lit "(24) 97036-8714")) 2 ex_random
    = (Some (Ok [row1; row2]), g')
    /\ cc_phone_number (assigned row2)
       = aa_line (operator row2) ++ strip_non_digits (lit "(24) 97036-8714")
    /\ cc_imsi (assigned row2)
       = slice_to 15 (aa_mcc (operator row2) ++ aa_mnc (operator row2)
                      ++ strip_non_digits (lit "(24) 97036-8714")).
Proof.
  eexists. eexists. eexists. split; [vm_compute; reflexivity|].
  eapply (get_phone_data_keeps_the_given_number
            ex_self (lit "(24) 97036-8714") 2 2 ex_random).
  - lia.
  - discriminate.
  - vm_compute. reflexivity.
  - right. left. reflexivity.
Defined.

(** X14: every record that [get_phone_data] hands over is built on a row
    of the device table that has a MAC prefix and on a row of the operator
    table, and its IMEI and ICCID hold decimal digits only: a synthesis
    that met anything else has left no record. *)
Theorem get_phone_data_rows_are_sound
        (self : RandomPhone.t) (phonenumber : option str) (qty : Z) (fuel : nat)
        (g g' : Random) (frame : Frame) (row : IdentityRow) :
  1 <= qty ->
  get_phone_data fuel self phonenumber qty g = (Some (Ok frame), g') ->
  In row frame ->
  In (device (assigned row)) (df self)
  /\ In (operator row) (df2 self)
  /\ bb_mac_prefix (device (assigned row)) <> None
  /\ digit_string (cc_imei (assigned row)) = true
  /\ digit_string (cc_iccid (assigned row)) = true.
Proof.
  intros Hqty H Hrow.
  destruct (get_phone_data_row_generated _ _ _ _ _ _ _ _ Hqty H Hrow)
    as (f & g0 & g1 & Hrun & Hf).
  apply _get_phone_data_inv in Hrun.
  destruct Hrun as (p & d & o & prefix & r & a & b & c & cd1 & cd2 & g2 & Hrun).
  destruct Hrun as (_ & Hd & Ho & Hmac & _ & _ & _ & _ & Hcd1 & Hcd2 & ->).
  destruct Hf as [<-|[]].
  cbn [identity_row assigned operator device cc_imei cc_iccid].
  repeat split; try assumption.
  - congruence.
  - exact (calc_check_digit_decimal_digits _ _ Hcd1).
  - exact (calc_check_digit_decimal_digits _ _ Hcd2).
Qed.

Lemma get_phone_data_rows_are_sound_witness :
  exists row g',
    get_phone_data 1 ex_self ex_phone 1 ex_random = (Some (Ok [row]), g')
    /\ In (device (assigned row)) (df ex_self)
    /\ In (operator row) (df2 ex_self)
    /\ bb_mac_prefix (device (assigned row)) <> None
    /\ digit_string (cc_imei (assigned row)) = true
    /\ digit_string (cc_iccid (assigned row)) = true.
Proof.
  eexists. eexists. split; [vm_compute; reflexivity|].
  eapply (get_phone_data_rows_are_sound ex_self ex_phone 1 1 ex_random).
  - lia.
  - vm_compute. reflexivity.
  - left. reflexivity.
Defined.

(** ** The make-up of the identifiers *)

Lemma to_base_length (fuel k : nat) (n : Z) (acc : str) :
  0 <= n < 10 ^ Z.of_nat (S k) ->
  (length (to_base fuel 10 n acc) <= length acc + S k)%nat.
Proof.
  revert k n acc. induction fuel as [|fuel IH]; intros k n acc Hn; cbn [to_base].
  - lia.
  - destruct (n / 10 =? 0) eqn:E; [cbn [length]; lia|].
    apply Z.eqb_neq in E.
    destruct k as [|k].
    + exfalso. apply E. apply Z.div_small. change (10 ^ Z.of_nat 1) with 10 in Hn. lia.
    + specialize (IH k (n / 10) (digit_char (n mod 10) :: acc)).
      cbn [length] in IH. etransitivity; [apply IH|lia].
      rewrite Nat2Z.inj_succ, Z.pow_succ_r in Hn by lia.
      split; [apply Z.div_pos; lia|apply Z.div_lt_upper_bound; lia].
Qed.

Lemma serial_length (r : Z) :
  0 <= r <= 999999 -> length (zfill 6 (str_of_int r)) = 6%nat.
Proof.
  intros Hr. apply zfill_length_exact. unfold str_of_int, signed.
  destruct (r <? 0) eqn:E; [apply Z.ltb_lt in E; lia|].
  unfold digits_of.
  pose proof (to_base_length (S (Z.to_nat (Z.log2 r))) 5 r []) as H.
  cbn [length] in H. apply H. change (10 ^ Z.of_nat 6) with 1000000. lia.
Qed.



(** X15: in a generated record with a tac of eight characters, the IMEI is
    the tac, then six decimal digits, then one decimal check digit; and
    when the mnc has at most eleven characters, the ICCID starts with "89",
    the line code filled with zeros or cut to six characters, and the mnc. *)
Theorem identifier_make_up (self : RandomPhone.t) (phonenumber : option str)
        (g g' : Random) (frame : Frame) (row : IdentityRow) :
  _get_phone_data self phonenumber g = (Ok frame, g') ->
  In row frame ->
  (length (bb_tac1 (device (assigned row))) = 8%nat ->
   exists serial cd,
     cc_imei (assigned row) = bb_tac1 (device (assigned row)) ++ serial ++ [cd]
     /\ length serial = 6%nat
     /\ digit_string serial = true
     /\ is_digit cd = true)
  /\ ((length (aa_mnc (operator row)) <= 11)%nat ->
      firstn (8 + length (aa_mnc (operator row))) (cc_iccid (assigned row))
      = lit "89"
        ++ slice_to 6 (aa_line (operator row) ++ repeat "0"%char 6)
        ++ aa_mnc (operator row)).
Proof.
  intros H Hrow. apply _get_phone_data_inv in H.
  destruct H as (p & d & o & prefix & r & a & b & c & cd1 & cd2 & g1 & H).
  destruct H as (_ & _ & _ & _ & Hr & _ & _ & _ & Hcd1 & Hcd2 & ->).
  destruct Hrow as [<-|[]].
  cbn [identity_row assigned operator device cc_imei cc_iccid bb_tac1 aa_mnc aa_line].
  split.
  - intros Htac.
    pose proof (calc_check_digit_decimal_digits _ _ Hcd1) as Hdig.
    destruct (calc_check_digit_decimal_valid _ _ Hcd1) as [_ Hlen].
    destruct cd1 as [|cd [|x xs]]; try discriminate Hlen.
    pose proof (serial_length r Hr) as Hs.
    assert (E : imei_body (bb_tac1 d) r = bb_tac1 d ++ zfill 6 (str_of_int r)).
    { unfold imei_body, slice_to. apply firstn_all2. rewrite length_app. lia. }
    rewrite E in *. exists (zfill 6 (str_of_int r)), cd.
    rewrite <- app_assoc. split; [reflexivity|]. split; [exact Hs|].
    rewrite !digit_string_app in Hdig.
    apply andb_true_iff in Hdig. destruct Hdig as [Hdig Hcd].
    apply andb_true_iff in Hdig. destruct Hdig as [_ Hser].
    split; [exact Hser|].
    unfold digit_string in Hcd. cbn [forallb] in Hcd.
    apply andb_true_iff in Hcd. tauto.
  - intros Hmnc. unfold iccid_body, slice_to.
    set (line6 := firstn 6 (aa_line o ++ repeat "0"%char 6)).
    set (phone10 := firstn 10 (p ++ repeat "0"%char 12)).
    assert (H6 : length line6 = 6%nat).
    { unfold line6. rewrite length_firstn, length_app, repeat_length. lia. }
    assert (H10 : length phone10 = 10%nat).
    { unfold phone10. rewrite length_firstn, length_app, repeat_length. lia. }
    set (head := lit "89" ++ line6 ++ aa_mnc o).
    assert (Hh : length head = (8 + length (aa_mnc o))%nat).
    { unfold head. rewrite !length_app, H6. reflexivity. }
    replace (lit "89" ++ line6 ++ aa_mnc o ++ phone10) with (head ++ phone10)
      by (unfold head; rewrite <- !app_assoc; reflexivity).
    rewrite firstn_app.
    rewrite length_firstn, length_app, Hh, H10.
    replace (8 + length (aa_mnc o) - Nat.min 19 (8 + length (aa_mnc o) + 10))%nat
      with 0%nat by lia.
    rewrite firstn_O, app_nil_r, firstn_firstn.
    replace (Nat.min (8 + length (aa_mnc o)) 19) with (length head) by lia.
    rewrite firstn_app, Nat.sub_diag, firstn_all, firstn_O. apply app_nil_r.
Qed.

Lemma identifier_make_up_witness :
  exists row g',
    _get_phone_data ex_self ex_phone ex_random = (Ok [row], g')
    /\ (length (bb_tac1 (device (assigned row))) = 8%nat ->
        exists serial cd,
          cc_imei (assigned row) = bb_tac1 (device (assigned row)) ++ serial ++ [cd]
          /\ length serial = 6%nat
          /\ digit_string serial = true
          /\ is_digit cd = true)
    /\ ((length (aa_mnc (operator row)) <= 11)%nat ->
        firstn (8 + length (aa_mnc (operator row))) (cc_iccid (assigned row))
        = lit "89"
          ++ slice_to 6 (aa_line (operator row) ++ repeat "0"%char 6)
          ++ aa_mnc (operator row)).
Proof.
  eexists. eexists. split; [vm_compute; reflexivity|].
  apply (identifier_make_up ex_self ex_phone ex_random _ _ _ eq_refl).
  left. reflexivity.
Defined.

(** X16: in a generated record the IMEI has 15 characters exactly when the
    tac has at least 8, the ICCID has 20 exactly when the mnc is not empty,
    and the IMSI has as many characters as mcc, mnc and the phone number
    together, up to 15. *)
Theorem identifier_lengths_exactly (self : RandomPhone.t) (phonenumber : option str)
        (g g' : Random) (frame : Frame) (row : IdentityRow) :
  _get_phone_data self phonenumber g = (Ok frame, g') ->
  In row frame ->
  (length (cc_imei (assigned row)) = 15%nat
   <-> (8 <= length (bb_tac1 (device (assigned row))))%nat)
  /\ (length (cc_iccid (assigned row)) = 20%nat <-> aa_mnc (operator row) <> [])
  /\ length (cc_imsi (assigned row))
     = Nat.min 15 (length (aa_mcc (operator row)) + length (aa_mnc (operator row))
                   + (length (cc_phone_number (assigned row))
                      - length (aa_line (operator row)))).
Proof.
  intros H Hrow. apply _get_phone_data_inv in H.
  destruct H as (p & d & o & prefix & r & a & b & c & cd1 & cd2 & g1 & H).
  destruct H as (_ & _ & _ & _ & Hr & _ & _ & _ & Hcd1 & Hcd2 & ->).
  destruct Hrow as [<-|[]].
  cbn [identity_row assigned operator device cc_imei cc_iccid cc_imsi
       cc_phone_number bb_tac1 aa_mnc aa_mcc aa_line].
  destruct (calc_check_digit_decimal_valid _ _ Hcd1) as [_ Hl1].
  destruct (calc_check_digit_decimal_valid _ _ Hcd2) as [_ Hl2].
  pose proof (serial_length r Hr) as Hs.
  rewrite !length_app, Hl1, Hl2.
  unfold imei_body, iccid_body, slice_to.
  rewrite !length_firstn, !length_app, !length_firstn, !length_app, !repeat_length, Hs.
  cbn [lit list_ascii_of_string map length].
  split; [lia|]. split; [|lia].
  destruct (aa_mnc o) as [|ch rest]; cbn [length]; split; intros H;
    try congruence; try lia.
Qed.

Lemma identifier_lengths_exactly_witness :
  exists row g',
    _get_phone_data ex_self_short ex_phone ex_random = (Ok [row], g')
    /\ length (cc_imei (assigned row)) = 14%nat
    /\ (length (cc_imei (assigned row)) = 15%nat
        <-> (8 <= length (bb_tac1 (device (assigned row))))%nat)
    /\ (length (cc_iccid (assigned row)) = 20%nat <-> aa_mnc (operator row) <> [])
    /\ length (cc_imsi (assigned row))
       = Nat.min 15 (length (aa_mcc (operator row)) + length (aa_mnc (operator row))
                     + (length (cc_phone_number (assigned row))
                        - length (aa_line (operator row)))).
Proof.
  eexists. eexists. split; [vm_compute; reflexivity|]. split; [reflexivity|].
  apply (identifier_lengths_exactly ex_self_short ex_phone ex_random _ _ _ eq_refl).
  left. reflexivity.
Defined.



(** ** The loop at its bounds *)

(** X18: for every count of 0 or less the loop body is never entered: the
    call raises the ValueError of [pd.concat] on an empty list, makes no
    synthesis and leaves the generator as it was. *)
Theorem get_phone_data_without_a_count
        (fuel : nat) (self : RandomPhone.t) (phonenumber : option str) (qty : Z)
        (g : Random) :
  qty <= 0 ->
  get_phone_data fuel self phonenumber qty g
  = (Some (Raise NoObjectsToConcatenate), g).
Proof.
  intros Hqty. unfold get_phone_data.
  assert (H : collect fuel self phonenumber qty [] g = (Some [], g)).
  { destruct fuel; cbn [collect length];
      (destruct (Z.of_nat 0 <? qty) eqn:E; [apply Z.ltb_lt in E; lia|reflexivity]). }
  rewrite H. reflexivity.
Qed.

Lemma get_phone_data_without_a_count_witness :
  get_phone_data 7 ex_self ex_phone (-3) ex_random
  = (Some (Raise NoObjectsToConcatenate), ex_random).
Proof.
  apply (get_phone_data_without_a_count 7 ex_self ex_phone (-3) ex_random). lia.
Defined.

(** X19: when the device table is empty, or the operator table is empty,
    or no device row has a MAC prefix, every synthesis raises, and
    [get_phone_data] with a count of at least 1 neither returns nor raises,
    however many passes it is given. *)
Theorem get_phone_data_never_ends_on_unusable_tables
        (self : RandomPhone.t) (phonenumber : option str) (qty : Z) :
  1 <= qty ->
  df self = [] \/ df2 self = []
  \/ Forall (fun d => bb_mac_prefix d = None) (df self) ->
  (forall g, exists e g', _get_phone_data self phonenumber g = (Raise e, g'))
  /\ forall fuel g, fst (get_phone_data fuel self phonenumber qty g) = None.
Proof.
  intros Hqty Hbad.
  assert (Hraise : forall g,
             exists e g', _get_phone_data self phonenumber g = (Raise e, g')).
  { intros g.
    destruct (_get_phone_data self phonenumber g) as [[frame|e] g1] eqn:E; [|eauto].
    exfalso. apply _get_phone_data_inv in E.
    destruct E as (p & d & o & prefix & r & a & b & c & cd1 & cd2 & g2 & E).
    destruct E as (_ & Hd & Ho & Hmac & _).
    destruct Hbad as [Hdf|[Hdf2|Hnone]].
    - rewrite Hdf in Hd. destruct Hd.
    - rewrite Hdf2 in Ho. destruct Ho.
    - rewrite Forall_forall in Hnone. rewrite (Hnone d Hd) in Hmac. discriminate Hmac. }
  split; [exact Hraise|].
  apply get_phone_data_all_raise; assumption.
Qed.

Lemma get_phone_data_never_ends_on_unusable_tables_witness :
  (forall g,
      exists e g',
        _get_phone_data
          (RandomPhone.mk (lit "Brazil") []
                          [mkDeviceRow [lit "QSmart"] (lit "35440811") None]
                          [ex_operator])
          ex_phone g = (Raise e, g'))
  /\ forall fuel g,
       fst (get_phone_data
              fuel
              (RandomPhone.mk (lit "Brazil") []
                              [mkDeviceRow [lit "QSmart"] (lit "35440811") None]
                              [ex_operator])
              ex_phone 2 g) = None.
Proof.
  apply (get_phone_data_never_ends_on_unusable_tables
           (RandomPhone.mk (lit "Brazil") []
                           [mkDeviceRow [lit "QSmart"] (lit "35440811") None]
                           [ex_operator])
           ex_phone 2).
  - lia.
  - right. right. constructor; [reflexivity|constructor].
Defined.

(** Once the loop has been left, more passes change nothing. *)
Lemma collect_more_fuel (self : RandomPhone.t) (phonenumber : option str) (qty : Z) :
  forall fuel extra allresults g frames g',
    collect fuel self phonenumber qty allresults g = (Some frames, g') ->
    collect (fuel + extra) self phonenumber qty allresults g = (Some frames, g').
Proof.
  induction fuel as [|fuel IH]; intros extra allresults g frames g' H;
    cbn [collect Nat.add] in *.
  - destruct (Z.of_nat (length allresults) <? qty) eqn:E; [discriminate H|].
    destruct extra; cbn [collect]; rewrite E; exact H.
  - destruct (Z.of_nat (length allresults) <? qty) eqn:E; [|exact H].
    destruct (_get_phone_data self phonenumber g) as [[frame|e] g1];
      apply IH; exact H.
Qed.

(** ** Swapped neighbours *)

Lemma swapped_sum_differs (p q x y : Z) (doubled : bool) :
  0 <= x < 10 -> 0 <= y < 10 -> x <> y ->
  ~ (x = 0 /\ y = 9) -> ~ (x = 9 /\ y = 0) ->
  (p + ((if doubled then (y * 2) / 10 + (y * 2) mod 10 else y)
        + ((if negb doubled then (x * 2) / 10 + (x * 2) mod 10 else x) + q))) mod 10
  <> (p + ((if doubled then (x * 2) / 10 + (x * 2) mod 10 else x)
           + ((if negb doubled then (y * 2) / 10 + (y * 2) mod 10 else y) + q))) mod 10.
Proof.
  intros Hx Hy Hxy H09 H90. destruct doubled; cbn [negb];
    Z.div_mod_to_equations; lia.
Qed.

Lemma traverse_rev_snoc (s : str) (x : char) (idxs : list Z) (ix : Z) :
  traverse (index decimal) (rev s) = Ok idxs ->
  index decimal x = Ok ix ->
  traverse (index decimal) (rev (s ++ [x])) = Ok (ix :: idxs).
Proof.
  intros Hs Hx. rewrite rev_app_distr. cbn [rev app traverse].
  rewrite Hx, Hs. reflexivity.
Qed.

(** The checksum of a decimal string, split at two neighbouring digits. *)
Lemma checksum_decimal_split2 (a b : str) (x y : char) (ia ib : list Z) (ix iy : Z) :
  traverse (index decimal) (rev a) = Ok ia ->
  traverse (index decimal) (rev b) = Ok ib ->
  index decimal x = Ok ix ->
  index decimal y = Ok iy ->
  checksum (a ++ x :: y :: b) decimal
  = Ok ((luhn_weighted false 10 ib
         + ((if Nat.odd (length ib) then (iy * 2) / 10 + (iy * 2) mod 10 else iy)
            + ((if negb (Nat.odd (length ib))
                then (ix * 2) / 10 + (ix * 2) mod 10 else ix)
               + luhn_weighted (negb (negb (Nat.odd (length ib)))) 10 ia))) mod 10).
Proof.
  intros Ha Hb Hx Hy.
  replace (a ++ x :: y :: b) with ((a ++ [x]) ++ y :: b)
    by (rewrite <- app_assoc; reflexivity).
  rewrite (checksum_decimal_split (a ++ [x]) b y (ix :: ia) ib iy
             (traverse_rev_snoc a x ia ix Ha Hx) Hb Hy).
  reflexivity.
Qed.

(** X20: on the decimal alphabet [checksum] tells two neighbouring digits
    that were swapped, except the pair 0 and 9: swapping "09" and "90"
    anywhere in a string leaves its checksum as it is. *)
Theorem checksum_and_swapped_neighbours (a b : str) (x y : char) :
  digit_string (a ++ x :: y :: b) = true ->
  (x <> y ->
   ~ (x = "0"%char /\ y = "9"%char) -> ~ (x = "9"%char /\ y = "0"%char) ->
   checksum (a ++ x :: y :: b) decimal <> checksum (a ++ y :: x :: b) decimal)
  /\ checksum (a ++ "0"%char :: "9"%char :: b) decimal
     = checksum (a ++ "9"%char :: "0"%char :: b) decimal.
Proof.
  intros H. apply digit_string_split in H. destruct H as (Ha & Hx & Hyb).
  change (y :: b) with ([] ++ y :: b) in Hyb.
  apply digit_string_split in Hyb. destruct Hyb as (_ & Hy & Hb).
  destruct (digit_string_traverse a Ha) as [ia Eia].
  destruct (digit_string_traverse b Hb) as [ib Eib].
  split.
  - intros Hxy H09 H90.
    destruct (index_decimal_total x Hx) as [ix Eix].
    destruct (index_decimal_total y Hy) as [iy Eiy].
    rewrite (checksum_decimal_split2 a b x y ia ib ix iy Eia Eib Eix Eiy).
    rewrite (checksum_decimal_split2 a b y x ia ib iy ix Eia Eib Eiy Eix).
    pose proof (index_bounds _ _ _ Eix) as Bx. pose proof (index_bounds _ _ _ Eiy) as By.
    change (len decimal) with 10 in Bx, By.
    intros E. injection E as E. revert E.
    apply swapped_sum_differs; try assumption.
    + intros ->. apply Hxy. exact (index_decimal_inj x y iy Eix Eiy).
    + intros [-> ->]. apply H09.
      split; [exact (index_decimal_inj x "0" 0 Eix eq_refl)
             |exact (index_decimal_inj y "9" 9 Eiy eq_refl)].
    + intros [-> ->]. apply H90.
      split; [exact (index_decimal_inj x "9" 9 Eix eq_refl)
             |exact (index_decimal_inj y "0" 0 Eiy eq_refl)].
  - rewrite (checksum_decimal_split2 a b "0" "9" ia ib 0 9 Eia Eib eq_refl eq_refl).
    rewrite (checksum_decimal_split2 a b "9" "0" ia ib 9 0 Eia Eib eq_refl eq_refl).
    destruct (Nat.odd (length ib)); reflexivity.
Qed.

Lemma checksum_and_swapped_neighbours_witness :
  (("7"%char : char) <> "3"%char ->
   ~ ("7"%char = "0"%char /\ "3"%char = "9"%char) ->
   ~ ("7"%char = "9"%char /\ "3"%char = "0"%char) ->
   checksum (lit "79927398" ++ "7"%char :: "3"%char :: lit "1") decimal
   <> checksum (lit "79927398" ++ "3"%char :: "7"%char :: lit "1") decimal)
  /\ checksum (lit "79927398" ++ "0"%char :: "9"%char :: lit "1") decimal
     = checksum (lit "79927398" ++ "9"%char :: "0"%char :: lit "1") decimal.
Proof.
  apply (checksum_and_swapped_neighbours (lit "79927398") (lit "1") "7" "3").
  reflexivity.
Defined.

(** ** Where the synthesis raises *)

Lemma bind_Raise_inv {A B} (c : M A) (k : A -> M B) (g g' : Random) (e : exn) :
  bind c k g = (Raise e, g') ->
  c g = (Raise e, g')
  \/ exists a g1, c g = (Ok a, g1) /\ k a g1 = (Raise e, g').
Proof.
  unfold bind. destruct (c g) as [[a|e1] g1]; intros H.
  - right. exists a, g1. split; [reflexivity|exact H].
  - left. congruence.
Qed.

Lemma choice_Raise {A} (seq : list A) (g g' : Random) (e : exn) :
  choice seq g = (Raise e, g') -> e = IndexOutOfRange /\ seq = [].
Proof.
  destruct seq as [|x xs]; unfold choice.
  - unfold raise. intros H. split; congruence.
  - unfold bind, py_draw, ret. discriminate.
Qed.

Lemma for_each_choice_Raise {A} (chunks : list (list A)) (g g' : Random) (e : exn) :
  for_each choice chunks g = (Raise e, g') -> e = IndexOutOfRange /\ In [] chunks.
Proof.
  revert g g'. induction chunks as [|chunk rest IH]; intros g g' H; cbn [for_each] in H.
  - discriminate H.
  - apply bind_Raise_inv in H. destruct H as [H|(x & g1 & _ & H)].
    + apply choice_Raise in H. destruct H as [-> ->]. split; [reflexivity|left; reflexivity].
    + apply bind_Raise_inv in H. destruct H as [H|(xs & g2 & _ & H)]; [|discriminate H].
      destruct (IH _ _ H) as [He Hin]. split; [exact He|right; exact Hin].
Qed.

Lemma _get_phone_number_Raise (self : RandomPhone.t) (phonenumber : option str)
      (g g' : Random) (e : exn) :
  _get_phone_number self phonenumber g = (Raise e, g') ->
  truthy phonenumber = false
  /\ ((e = NeedPhoneNumber /\ phone_format_without_country self = [] /\ g' = g)
      \/ (e = IndexOutOfRange /\ In [] (phone_format_without_country self))).
Proof.
  unfold _get_phone_number. intros H.
  apply bind_Raise_inv in H. destruct H as [H|(raw & g1 & _ & H)]; [|discriminate H].
  destruct (truthy phonenumber); [discriminate H|]. split; [reflexivity|].
  destruct (phone_format_without_country self) as [|chunk rest] eqn:E.
  - left. unfold raise in H. repeat split; congruence.
  - right. apply bind_Raise_inv in H. destruct H as [H|(picked & g1 & _ & H)];
      [|discriminate H].
    exact (for_each_choice_Raise _ _ _ _ H).
Qed.

(** X21: [_get_phone_number] raises only when no non-empty phone number is
    given: the ValueError asking for a phone number when the format is
    empty, before anything is drawn, and IndexError when the format holds
    an empty chunk. *)
Theorem _get_phone_number_raises (self : RandomPhone.t) (phonenumber : option str)
        (g g' : Random) (e : exn) :
  _get_phone_number self phonenumber g = (Raise e, g') ->
  truthy phonenumber = false
  /\ ((e = NeedPhoneNumber /\ phone_format_without_country self = [] /\ g' = g)
      \/ (e = IndexOutOfRange /\ In [] (phone_format_without_country self))).
Proof. apply _get_phone_number_Raise. Qed.

Lemma _get_phone_number_raises_witness :
  _get_phone_number
    (RandomPhone.mk (lit "Brazil") [[lit "11"]; []] [ex_device] [ex_operator])
    (Some []) ex_random
  = (Raise IndexOutOfRange,
     mkRandom (py_tape ex_random) 1 (np_tape ex_random) 0)
  /\ truthy (Some []) = false
  /\ ((IndexOutOfRange = NeedPhoneNumber
       /\ phone_format_without_country
            (RandomPhone.mk (lit "Brazil") [[lit "11"]; []] [ex_device] [ex_operator])
          = []
       /\ mkRandom (py_tape ex_random) 1 (np_tape ex_random) 0 = ex_random)
      \/ (IndexOutOfRange = IndexOutOfRange
          /\ In [] (phone_format_without_country
                      (RandomPhone.mk (lit "Brazil") [[lit "11"]; []]
                                      [ex_device] [ex_operator])))).
Proof.
  split; [reflexivity|].
  apply (_get_phone_number_raises
           (RandomPhone.mk (lit "Brazil") [[lit "11"]; []] [ex_device] [ex_operator])
           (Some []) ex_random
           (mkRandom (py_tape ex_random) 1 (np_tape ex_random) 0) IndexOutOfRange).
  reflexivity.
Defined.

Lemma sample_Raise {A} (frame : list A) (g g' : Random) (e : exn) :
  sample frame g = (Raise e, g') -> e = EmptySample /\ frame = [].
Proof.
  destruct frame as [|x xs]; unfold sample.
  - unfold raise. intros H. split; congruence.
  - unfold bind, np_draw, ret. discriminate.
Qed.

Lemma randint_Raise (a b : Z) (g g' : Random) (e : exn) :
  randint a b g = (Raise e, g') -> False.
Proof. unfold randint, bind, py_draw, ret. discriminate. Qed.

Lemma calc_check_digit_decimal_Raise (s : str) (e : exn) :
  calc_check_digit s decimal = Raise e ->
  e = SubstringNotFound /\ digit_string s = false.
Proof.
  intros H. split.
  - unfold calc_check_digit in H.
    change (subscript decimal 0) with (Ok "0"%char : result char) in H.
    cbn [rbind plus_str] in H. rewrite checksum_snoc_decimal in H.
    change (index decimal "0") with (Ok 0 : result Z) in H. cbn [rbind] in H.
    destruct (traverse (index decimal) (rev s)) as [rest|e'] eqn:E; cbn [rbind] in H.
    + destruct (subscript_decimal_neg (luhn_total 10 (0 :: rest) mod 10))
        as [ch [Hsub _]]; [apply Z.mod_pos_bound; lia|].
      rewrite Hsub in H. discriminate H.
    + apply traverse_index_raises in E. destruct E as [-> _]. congruence.
  - destruct (digit_string s) eqn:D; [|reflexivity].
    destruct (calc_check_digit_decimal_total s D) as [cd Hcd]. congruence.
Qed.

Lemma imei_body_digits_from_tac (tac : str) (r : Z) :
  0 <= r -> digit_string (firstn 14 tac) = true ->
  digit_string (imei_body tac r) = true.
Proof.
  intros Hr Ht. unfold imei_body, slice_to.
  rewrite firstn_app, digit_string_app, Ht.
  rewrite digit_string_firstn
    by (apply digit_string_zfill, digit_string_str_of_int; exact Hr).
  reflexivity.
Qed.

Lemma iccid_body_digits_from_fields (line mnc p : str) :
  digit_string (firstn 6 line) = true ->
  digit_string (firstn 11 mnc) = true ->
  digit_string (firstn 10 p) = true ->
  digit_string (iccid_body line mnc p) = true.
Proof.
  intros Hl Hm Hp. unfold iccid_body, slice_to.
  set (line6 := firstn 6 (line ++ repeat "0"%char 6)).
  set (phone10 := firstn 10 (p ++ repeat "0"%char 12)).
  assert (H6 : length line6 = 6%nat).
  { unfold line6. rewrite length_firstn, length_app, repeat_length. lia. }
  assert (Hd6 : digit_string line6 = true).
  { unfold line6. rewrite firstn_app, digit_string_app, Hl.
    rewrite digit_string_firstn by apply digit_string_zeros. reflexivity. }
  assert (Hd10 : digit_string phone10 = true).
  { unfold phone10. rewrite firstn_app, digit_string_app, Hp.
    rewrite digit_string_firstn by apply digit_string_zeros. reflexivity. }
  change (lit "89" ++ line6 ++ mnc ++ phone10)
    with ("8"%char :: "9"%char :: (line6 ++ mnc ++ phone10)).
  change (firstn 19 ("8"%char :: "9"%char :: (line6 ++ mnc ++ phone10)))
    with ("8"%char :: "9"%char :: firstn 17 (line6 ++ mnc ++ phone10)).
  unfold digit_string. cbn [forallb]. fold (digit_string (firstn 17 (line6 ++ mnc ++ phone10))).
  change (is_digit "8") with true. change (is_digit "9") with true. cbn [andb].
  rewrite firstn_app, H6, digit_string_app.
  rewrite (digit_string_firstn 17 line6 Hd6). cbn [andb].
  change (17 - 6)%nat with 11%nat.
  rewrite firstn_app, digit_string_app, Hm.
  rewrite (digit_string_firstn _ phone10 Hd10). reflexivity.
Qed.

(** X22: a synthesis raises only in these cases: no phone number can be
    built (the errors of [_get_phone_number]); the device table or the
    operator table is empty (ValueError of sampling); some row has a
    character that is not one of the digits 0 to 9 among the first 14 of its
    tac, the first 6 of its line code or the first 11 of its mnc (ValueError
    of the check digit); the phone number that was built has among its first
    10 characters a decimal digit of another script, which is not one of the
    digits 0 to 9 (ValueError of the check digit of the ICCID); or some
    device row has no MAC prefix (TypeError). *)
Theorem _get_phone_data_raises (self : RandomPhone.t) (phonenumber : option str)
        (g g' : Random) (e : exn) :
  _get_phone_data self phonenumber g = (Raise e, g') ->
  (e = NeedPhoneNumber /\ truthy phonenumber = false
   /\ phone_format_without_country self = [])
  \/ (e = IndexOutOfRange /\ truthy phonenumber = false
      /\ In [] (phone_format_without_country self))
  \/ (e = EmptySample /\ (df self = [] \/ df2 self = []))
  \/ (e = SubstringNotFound
      /\ exists d o,
           In d (df self) /\ In o (df2 self)
           /\ (digit_string (firstn 14 (bb_tac1 d)) = false
               \/ digit_string (firstn 6 (aa_line o)) = false
               \/ digit_string (firstn 11 (aa_mnc o)) = false))
  \/ (e = SubstringNotFound
      /\ exists p g1,
           _get_phone_number self phonenumber g = (Ok p, g1)
           /\ decimal_string p = true
           /\ digit_string (firstn 10 p) = false)
  \/ (e = NoLen /\ exists d, In d (df self) /\ bb_mac_prefix d = None).
Proof.
  unfold _get_phone_data. intros H.
  apply bind_Raise_inv in H. destruct H as [H|(p & g1 & Hp & H)].
  { apply _get_phone_number_Raise in H. destruct H as [Ht [(-> & Hf & _)|(-> & Hin)]];
      [left|right; left]; repeat split; assumption. }
  pose proof (_get_phone_number_decimal _ _ _ _ _ Hp) as Hpd.
  apply bind_Raise_inv in H. destruct H as [H|(sa2 & g2 & Hsa2 & H)].
  { apply sample_Raise in H. destruct H as [-> Hdf]. right. right. left. tauto. }
  apply sample_Ok in Hsa2. destruct Hsa2 as (d & Hd & ->).
  apply bind_Raise_inv in H. destruct H as [H|(tac & g3 & Htac & H)]; [discriminate H|].
  apply ret_Ok in Htac. destruct Htac as [-> ->].
  apply bind_Raise_inv in H. destruct H as [H|(sa & g4 & Hsa & H)].
  { apply sample_Raise in H. destruct H as [-> Hdf2]. right. right. left. tauto. }
  apply sample_Ok in Hsa. destruct Hsa as (o & Ho & ->).
  apply bind_Raise_inv in H. destruct H as [H|(mcc & g5 & Hmcc & H)]; [discriminate H|].
  apply ret_Ok in Hmcc. destruct Hmcc as [-> ->].
  apply bind_Raise_inv in H. destruct H as [H|(mnc & g6 & Hmnc & H)]; [discriminate H|].
  apply ret_Ok in Hmnc. destruct Hmnc as [-> ->].
  apply bind_Raise_inv in H. destruct H as [H|(r & g7 & Hr & H)];
    [destruct (randint_Raise _ _ _ _ _ H)|].
  apply randint_Ok in Hr; [|lia].
  apply bind_Raise_inv in H. destruct H as [H|(cd1 & g8 & Hcd1 & H)].
  { unfold lift in H. assert (Hc : calc_check_digit
                                     (slice_to 14 (bb_tac1 d ++ zfill 6 (str_of_int r)))
                                     decimal = Raise e) by congruence.
    fold (imei_body (bb_tac1 d) r) in Hc.
    apply calc_check_digit_decimal_Raise in Hc. destruct Hc as [-> Hnd].
    right. right. right. left. split; [reflexivity|]. exists d, o.
    split; [exact Hd|]. split; [exact Ho|]. left.
    destruct (digit_string (firstn 14 (bb_tac1 d))) eqn:D; [|reflexivity].
    rewrite (imei_body_digits_from_tac (bb_tac1 d) r) in Hnd by (lia || exact D).
    discriminate Hnd. }
  apply bind_Raise_inv in H. destruct H as [H|(line & g9 & Hline & H)]; [discriminate H|].
  apply ret_Ok in Hline. destruct Hline as [-> ->].
  apply bind_Raise_inv in H. destruct H as [H|(mnc & g10 & Hmnc & H)]; [discriminate H|].
  apply ret_Ok in Hmnc. destruct Hmnc as [-> ->].
  apply bind_Raise_inv in H. destruct H as [H|(cd2 & g11 & Hcd2 & H)].
  { unfold lift in H.
    assert (Hc : calc_check_digit (iccid_body (aa_line o) (aa_mnc o) p) decimal
                 = Raise e) by (unfold iccid_body; congruence).
    apply calc_check_digit_decimal_Raise in Hc. destruct Hc as [-> Hnd].
    destruct (digit_string (firstn 10 p)) eqn:D10.
    - right. right. right. left. split; [reflexivity|]. exists d, o.
      split; [exact Hd|]. split; [exact Ho|]. right.
      destruct (digit_string (firstn 6 (aa_line o))) eqn:D6; [|left; reflexivity].
      destruct (digit_string (firstn 11 (aa_mnc o))) eqn:D11; [|right; reflexivity].
      rewrite (iccid_body_digits_from_fields _ _ _ D6 D11 D10) in Hnd.
      discriminate Hnd.
    - right. right. right. right. left. split; [reflexivity|].
      exists p, g1. split; [exact Hp|]. split; [exact Hpd|exact D10]. }
  apply bind_Raise_inv in H. destruct H as [H|(oprefix & g12 & Hop & H)];
    [discriminate H|].
  apply ret_Ok in Hop. destruct Hop as [-> ->].
  apply bind_Raise_inv in H. destruct H as [H|(prefix & g13 & Hprefix & H)].
  { destruct (bb_mac_prefix d) eqn:Hmac; [discriminate H|].
    unfold raise in H. right. right. right. right. right.
    split; [congruence|]. exists d. split; assumption. }
  apply bind_Raise_inv in H. destruct H as [H|(a & g14 & Ha & H)];
    [destruct (randint_Raise _ _ _ _ _ H)|].
  apply bind_Raise_inv in H. destruct H as [H|(b & g15 & Hb & H)];
    [destruct (randint_Raise _ _ _ _ _ H)|].
  apply bind_Raise_inv in H. destruct H as [H|(c & g16 & Hc & H)];
    [destruct (randint_Raise _ _ _ _ _ H)|].
  apply bind_Raise_inv in H. destruct H as [H|(line & g17 & Hline & H)];
    [discriminate H|].
  discriminate H.
Qed.

Lemma _get_phone_data_raises_witness :
  exists g',
    _get_phone_data ex_self ex_phone_arabic_indic ex_random
    = (Raise SubstringNotFound, g')
    /\ ((exists d o,
            In d (df ex_self) /\ In o (df2 ex_self)
            /\ (digit_string (firstn 14 (bb_tac1 d)) = false
                \/ digit_string (firstn 6 (aa_line o)) = false
                \/ digit_string (firstn 11 (aa_mnc o)) = false))
        \/ (exists p g1,
              _get_phone_number ex_self ex_phone_arabic_indic ex_random = (Ok p, g1)
              /\ decimal_string p = true
              /\ digit_string (firstn 10 p) = false)).
Proof.
  eexists. split; [vm_compute; reflexivity|].
  destruct (_get_phone_data_raises ex_self ex_phone_arabic_indic ex_random _
                                   SubstringNotFound eq_refl)
    as [(E & _)|[(E & _)|[(E & _)|[(_ & H)|[(_ & H)|(E & _)]]]]];
    try discriminate E.
  - left. exact H.
  - right. exact H.
Defined.
